(** * Alberti: snap points, pairwise intersection solvers and ellipse tangents

    A shallow embedding of [SnapPoints.js] (the snap point manager and its
    [isect_*] solvers) and of [EllipticalShape.prototype.getTangentsThrough],
    followed by the properties proved about them.

    JavaScript numbers are IEEE 754 binary64 values, so they are modelled by
    Rocq's primitive [float]: every arithmetic expression below is the source
    expression, with the same rounding, the same infinities and the same NaN.
    The helpers that the sources call but that live in other files of the
    repository ([Util], [Coord2D], [SpatialHash]) are interfaces here; module
    [SpecModel] gives one implementation of each, written from the
    specification, on which the concrete scenarios are evaluated. *)

From Stdlib Require Import String Ascii.
From Stdlib Require Import Floats ZArith PArith Lia Bool List.
From Stdlib Require Uint63.
From stdpp Require gmap.
Import ListNotations.

Set Warnings "-inexact-float".

Open Scope float_scope.

(** ** JavaScript comparison operators on numbers *)

Module JS.

(** [a > b] *)
Definition gtb (a b : float) : bool := b <? a.

(** [a >= b] *)
Definition geb (a b : float) : bool := b <=? a.

(** [a != b] *)
Definition neb (a b : float) : bool := negb (a =? b).

(** [ToNumber(undefined)]: what an out-of-range array read becomes once it
    enters an arithmetic expression. *)
Definition undefined : float := nan.

(** [arr[i]] read as a number. *)
Definition index (arr : list float) (i : nat) : float := nth i arr undefined.

End JS.

Infix ">?" := JS.gtb (at level 70, no associativity) : float_scope.
Infix ">=?" := JS.geb (at level 70, no associativity) : float_scope.
Infix "!=?" := JS.neb (at level 70, no associativity) : float_scope.

(** ** Geometry values *)

Record Coord2D := mkCoord2D { x : float; y : float }.

Module Line.
Record t := fromPoints { p1 : Coord2D; p2 : Coord2D }.
End Line.

Module Bezier.
Record t := mk { p1 : Coord2D; p2 : Coord2D; p3 : Coord2D }.
End Bezier.

Module Circle.
Record t := mk { center : Coord2D; radius : float }.
End Circle.

Module CircularArc.
Record t := mk { center : Coord2D; radius : float; sa : float; da : float }.
End CircularArc.

(** [coeffs] is the array of the conic coefficients; [projectToQuad] and
    [pull] both assign it, to six numbers or to the empty array. *)
Module Ellipse.
Record t := mk
  { center : Coord2D; rx : float; ry : float; xrot : float;
    coeffs : list float }.
End Ellipse.

Module EllipticalArc.
Record t := mk
  { center : Coord2D; rx : float; ry : float; xrot : float;
    sa : float; da : float; coeffs : list float }.
End EllipticalArc.

Module Rect.
Record t := mk { left : float; top : float; right : float; bottom : float }.
End Rect.

(** A shape object, tagged by the class that built it. *)
Inductive Shape :=
| ShapeLine (l : Line.t)
| ShapeCircle (c : Circle.t)
| ShapeCarc (a : CircularArc.t)
| ShapeEllipse (e : Ellipse.t)
| ShapeEarc (a : EllipticalArc.t)
| ShapeBezier (b : Bezier.t)
| ShapeRect (r : Rect.t).

Definition shapeName (s : Shape) : string :=
  match s with
  | ShapeLine _ => "line"
  | ShapeCircle _ => "circle"
  | ShapeCarc _ => "carc"
  | ShapeEllipse _ => "ellipse"
  | ShapeEarc _ => "earc"
  | ShapeBezier _ => "bezier"
  | ShapeRect _ => "rect"
  end.

(** *** Duck typing

    A solver reads properties off whatever object it receives.  [asX s] is
    the view of [s] through the properties that a solver expecting an [X]
    reads, and [None] when reading them would throw a [TypeError]. *)

Definition asLine (s : Shape) : option Line.t :=
  match s with
  | ShapeLine l => Some l
  | ShapeBezier b => Some (Line.fromPoints (Bezier.p1 b) (Bezier.p2 b))
  | _ => None
  end.

Definition asBezier (s : Shape) : option Bezier.t :=
  match s with
  | ShapeBezier b => Some b
  | _ => None
  end.

Definition carcCircle (a : CircularArc.t) : Circle.t :=
  Circle.mk (CircularArc.center a) (CircularArc.radius a).

Definition asCircle (s : Shape) : option Circle.t :=
  match s with
  | ShapeCircle c => Some c
  | ShapeCarc a => Some (carcCircle a)
  | _ => None
  end.

Definition asCarc (s : Shape) : option CircularArc.t :=
  match s with
  | ShapeCarc a => Some a
  | _ => None
  end.

Definition earcEllipse (a : EllipticalArc.t) : Ellipse.t :=
  Ellipse.mk (EllipticalArc.center a) (EllipticalArc.rx a)
    (EllipticalArc.ry a) (EllipticalArc.xrot a) (EllipticalArc.coeffs a).

Definition asEllipse (s : Shape) : option Ellipse.t :=
  match s with
  | ShapeEllipse e => Some e
  | ShapeEarc a => Some (earcEllipse a)
  | _ => None
  end.

Definition asEarc (s : Shape) : option EllipticalArc.t :=
  match s with
  | ShapeEarc a => Some a
  | _ => None
  end.

Definition asRect (s : Shape) : option Rect.t :=
  match s with
  | ShapeRect r => Some r
  | _ => None
  end.

(** ** Interfaces of the helpers defined outside the embedded sources *)

(** [Util.equals(a, b, tolerance)] (the tolerance is optional),
    [Util.between(v, a, b)], [Util.floorToDecimal(v, places)] and
    [Util.angleIsBetweenAngles(a, sa, ea)]. *)
Class UtilOps := {
  Util_equals : float -> float -> option float -> bool;
  Util_between : float -> float -> float -> bool;
  Util_floorToDecimal : float -> Z -> float;
  Util_angleIsBetweenAngles : float -> float -> float -> bool
}.

(** [a.distanceTo(b)], [a.angleTo(b)] and [a.isEqual(b)] of [Coord2D]. *)
Class Coord2DOps := {
  distanceTo : Coord2D -> Coord2D -> float;
  angleTo : Coord2D -> Coord2D -> float;
  isEqual : Coord2D -> Coord2D -> bool
}.

(** [Math.pow]; [Math.sqrt] and [Math.abs] are the primitive [sqrt], [abs]. *)
Class MathOps := {
  Math_pow : float -> float -> float
}.

(** The spatial hash behind [SnapPoints.points]: [h.insert(p)],
    [h.remove(points)] and [h.search(p, radius)].  The object is mutated in
    place by the first two; here they return the updated hash. *)
Class SpatialHashOps := {
  SpatialHash : Type;
  SH_insert : SpatialHash -> Coord2D -> SpatialHash;
  SH_remove : SpatialHash -> list Coord2D -> SpatialHash;
  SH_search : SpatialHash -> Coord2D -> float -> list Coord2D
}.

(** ** The pairwise solvers ([SnapPoints.isect_*]) *)

Section Solvers.

Context {util : UtilOps} {coord : Coord2DOps} {math : MathOps}.

(** [t >= 0 && t <= 1] *)
Definition inUnitInterval (t : float) : bool := (t >=? 0) && (t <=? 1).

Definition isect_lineline (l1 l2 : Line.t) : list Coord2D :=
  let a1 := y (Line.p2 l1) - y (Line.p1 l1) in
  let b1 := x (Line.p1 l1) - x (Line.p2 l1) in
  let c1 := a1 * x (Line.p1 l1) + b1 * y (Line.p1 l1) in
  let a2 := y (Line.p2 l2) - y (Line.p1 l2) in
  let b2 := x (Line.p1 l2) - x (Line.p2 l2) in
  let c2 := a2 * x (Line.p1 l2) + b2 * y (Line.p1 l2) in
  let det := a1 * b2 - a2 * b1 in
  if negb (Util_equals det 0 None) then
    let x0 := (b2 * c1 - b1 * c2) / det in
    let y0 := (a1 * c2 - a2 * c1) / det in
    if Util_between x0 (x (Line.p1 l1)) (x (Line.p2 l1))
       && Util_between y0 (y (Line.p1 l1)) (y (Line.p2 l1))
       && Util_between x0 (x (Line.p1 l2)) (x (Line.p2 l2))
       && Util_between y0 (y (Line.p1 l2)) (y (Line.p2 l2))
    then [mkCoord2D x0 y0]
    else []
  else [].

(** The point of [line] at parameter [t]:
    [new Coord2D(line.p1.x + t * dx, line.p1.y + t * dy)] where [dx] and
    [dy] are the differences of the end points' coordinates. *)
Definition lineAt (line : Line.t) (t : float) : Coord2D :=
  let dx := x (Line.p2 line) - x (Line.p1 line) in
  let dy := y (Line.p2 line) - y (Line.p1 line) in
  mkCoord2D (x (Line.p1 line) + t * dx) (y (Line.p1 line) + t * dy).

Definition isect_ellipseline (ellipse : Ellipse.t) (line : Line.t)
  : list Coord2D :=
  if (0 <? List.length (Ellipse.coeffs ellipse))%nat then
    let a := JS.index (Ellipse.coeffs ellipse) 0 in
    let b := JS.index (Ellipse.coeffs ellipse) 1 in
    let c := JS.index (Ellipse.coeffs ellipse) 2 in
    let d := JS.index (Ellipse.coeffs ellipse) 3 in
    let f := JS.index (Ellipse.coeffs ellipse) 4 in
    let g := JS.index (Ellipse.coeffs ellipse) 5 in
    let x1 := x (Line.p1 line) in
    let y1 := y (Line.p1 line) in
    let x2 := x (Line.p2 line) in
    let y2 := y (Line.p2 line) in
    let A := c*y2*y2 - 2*c*y1*y2 + 2*b*x2*y2 - 2*b*x1*y2 + c*y1*y1
             - 2*b*x2*y1 + 2*b*x1*y1 + a*x2*x2 - 2*a*x1*x2 + a*x1*x1 in
    let B := 2*c*y1*y2 + 2*b*x1*y2 + 2*f*y2 - 2*c*y1*y1 + 2*b*x2*y1
             - 4*b*x1*y1 - 2*f*y1 + 2*a*x1*x2 + 2*d*x2 - 2*a*x1*x1
             - 2*d*x1 in
    let C := c*y1*y1 + 2*b*x1*y1 + 2*f*y1 + a*x1*x1 + 2*d*x1 + g in
    let discriminant := B*B - 4*A*C in
    let alpha := 2.19e35 in
    let beta := -5.673 in
    let area := Ellipse.rx ellipse * Ellipse.ry ellipse in
    let tolerance := (alpha * Math_pow area beta) / 10e40 in
    if Util_equals discriminant 0 (Some tolerance) then
      let t := (- B) / (2*A) in
      if inUnitInterval t then [lineAt line t] else []
    else if discriminant >? 0 then
      let rootd := sqrt discriminant in
      let t1 := (- B + rootd) / (2*A) in
      let t2 := (- B - rootd) / (2*A) in
      (if inUnitInterval t1 then [lineAt line t1] else [])
      ++ (if inUnitInterval t2 then [lineAt line t2] else [])
    else []
  else [].

(** The loop shared by the arc solvers: keep the solutions whose polar angle
    around [center] lies on the arc from [sa] to [sa + da]. *)
Definition onArc (center : Coord2D) (sa da : float) (p : Coord2D) : bool :=
  Util_angleIsBetweenAngles (angleTo center p) sa (sa + da).

Definition isect_earcline (arc : EllipticalArc.t) (line : Line.t)
  : list Coord2D :=
  let solutions := isect_ellipseline (earcEllipse arc) line in
  filter (onArc (EllipticalArc.center arc) (EllipticalArc.sa arc)
            (EllipticalArc.da arc)) solutions.

(** The coefficients [a], [b], [c] of the quadratic in the line parameter
    that [isect_circleline] solves. *)
Definition circleline_abc (circle : Circle.t) (line : Line.t)
  : float * float * float :=
  let dx1 := x (Line.p2 line) - x (Line.p1 line) in
  let dy1 := y (Line.p2 line) - y (Line.p1 line) in
  let dx2 := x (Line.p1 line) - x (Circle.center circle) in
  let dy2 := y (Line.p1 line) - y (Circle.center circle) in
  let a := dx1 * dx1 + dy1 * dy1 in
  let b := 2 * (dx2 * dx1 + dy2 * dy1) in
  let c := (dx2 * dx2 + dy2 * dy2)
           - Circle.radius circle * Circle.radius circle in
  (a, b, c).

Definition circleline_discriminant (circle : Circle.t) (line : Line.t)
  : float :=
  let '(a, b, c) := circleline_abc circle line in
  b * b - 4 * a * c.

Definition isect_circleline (circle : Circle.t) (line : Line.t)
  : list Coord2D :=
  let '(a, b, c) := circleline_abc circle line in
  let discriminant := circleline_discriminant circle line in
  if Util_equals discriminant 0 (Some 1e-25) then
    let t := (- b) / (2 * a) in
    if inUnitInterval t then [lineAt line t] else []
  else if discriminant >? 0 then
    let rootd := sqrt discriminant in
    let t1 := (- b + rootd) / (2 * a) in
    let t2 := (- b - rootd) / (2 * a) in
    (if inUnitInterval t1 then [lineAt line t1] else [])
    ++ (if inUnitInterval t2 then [lineAt line t2] else [])
  else [].

Definition isect_carcline (arc : CircularArc.t) (line : Line.t)
  : list Coord2D :=
  let solutions := isect_circleline (carcCircle arc) line in
  filter (onArc (CircularArc.center arc) (CircularArc.sa arc)
            (CircularArc.da arc)) solutions.

(** The point of the quadratic curve [bezier] at parameter [t]. *)
Definition bezierAt (bezier : Bezier.t) (t : float) : Coord2D :=
  let x0 := x (Bezier.p1 bezier) in
  let y0 := y (Bezier.p1 bezier) in
  let x1 := x (Bezier.p2 bezier) in
  let y1 := y (Bezier.p2 bezier) in
  let x2 := x (Bezier.p3 bezier) in
  let y2 := y (Bezier.p3 bezier) in
  let D := (1 - t)*(1 - t) in
  let E := 2*(1 - t)*t in
  let F := t*t in
  mkCoord2D (D*x0 + E*x1 + F*x2) (D*y0 + E*y1 + F*y2).

Definition isect_bezierline (bezier : Bezier.t) (line : Line.t)
  : list Coord2D :=
  let x0 := x (Bezier.p1 bezier) in
  let y0 := y (Bezier.p1 bezier) in
  let x1 := x (Bezier.p2 bezier) in
  let y1 := y (Bezier.p2 bezier) in
  let x2 := x (Bezier.p3 bezier) in
  let y2 := y (Bezier.p3 bezier) in
  let x3 := x (Line.p1 line) in
  let y3 := y (Line.p1 line) in
  let x4 := x (Line.p2 line) in
  let y4 := y (Line.p2 line) in
  let A := x2*y4 - 2*x1*y4 + x0*y4 - x2*y3 + 2*x1*y3 - x0*y3 - x4*y2
           + x3*y2 + 2*x4*y1 - 2*x3*y1 - x4*y0 + x3*y0 in
  let B := 2*x1*y4 - 2*x0*y4 - 2*x1*y3 + 2*x0*y3 - 2*x4*y1 + 2*x3*y1
           + 2*x4*y0 - 2*x3*y0 in
  let C := - x3*y4 + x0*y4 + x4*y3 - x0*y3 - x4*y0 + x3*y0 in
  let discriminant := B*B - 4*A*C in
  let solutions :=
    if Util_equals discriminant 0 None then
      let t := (- B) / (2*A) in
      if inUnitInterval t then [bezierAt bezier t] else []
    else if discriminant >? 0 then
      let rootd := sqrt discriminant in
      let t1 := (- B + rootd) / (2*A) in
      let t2 := (- B - rootd) / (2*A) in
      (if inUnitInterval t1 then [bezierAt bezier t1] else [])
      ++ (if inUnitInterval t2 then [bezierAt bezier t2] else [])
    else [] in
  filter (fun sol =>
            Util_between (x sol) (x (Line.p1 line)) (x (Line.p2 line))
            && Util_between (y sol) (y (Line.p1 line)) (y (Line.p2 line)))
         solutions.

(** The values [isect_carccarc] compares: the distance of the centres, the
    sum of the radii and the absolute difference of the radii, each floored
    to six decimals. *)
Definition carccarc_d (arc1 arc2 : CircularArc.t) : float :=
  Util_floorToDecimal
    (distanceTo (CircularArc.center arc1) (CircularArc.center arc2)) 6.

Definition carccarc_rsum (arc1 arc2 : CircularArc.t) : float :=
  Util_floorToDecimal (CircularArc.radius arc1 + CircularArc.radius arc2) 6.

Definition carccarc_rdiff (arc1 arc2 : CircularArc.t) : float :=
  Util_floorToDecimal
    (abs (CircularArc.radius arc1 - CircularArc.radius arc2)) 6.

(** The array [solutions] of [isect_carccarc], before the arcs' angular
    extents are looked at. *)
Definition carccarc_solutions (arc1 arc2 : CircularArc.t) : list Coord2D :=
  let d := carccarc_d arc1 arc2 in
  let rsum := carccarc_rsum arc1 arc2 in
  let rdiff := carccarc_rdiff arc1 arc2 in
  let r1Squared := CircularArc.radius arc1 * CircularArc.radius arc1 in
  let r2Squared := CircularArc.radius arc2 * CircularArc.radius arc2 in
  let dx := x (CircularArc.center arc2) - x (CircularArc.center arc1) in
  let dy := y (CircularArc.center arc2) - y (CircularArc.center arc1) in
  if (d <? rsum) && (d >? rdiff) then
    let a := (r1Squared - r2Squared + d * d) / (2 * d) in
    let h := sqrt (r1Squared - a * a) in
    let aratio := a / d in
    let hratio := h / d in
    let newdx := hratio * dx in
    let newdy := hratio * dy in
    let p2 := mkCoord2D (x (CircularArc.center arc1) + aratio * dx)
                        (y (CircularArc.center arc1) + aratio * dy) in
    [ mkCoord2D (x p2 + newdy) (y p2 - newdx);
      mkCoord2D (x p2 - newdy) (y p2 + newdx) ]
  else if (d !=? 0) && (Util_equals rsum d None || Util_equals rdiff d None)
  then
    let rratio := CircularArc.radius arc1 / d in
    [ mkCoord2D (x (CircularArc.center arc1) + rratio * dx)
                (y (CircularArc.center arc1) + rratio * dy) ]
  else [].

Definition isect_carccarc (arc1 arc2 : CircularArc.t) : list Coord2D :=
  filter (fun s =>
            onArc (CircularArc.center arc1) (CircularArc.sa arc1)
                  (CircularArc.da arc1) s
            && onArc (CircularArc.center arc2) (CircularArc.sa arc2)
                     (CircularArc.da arc2) s)
         (carccarc_solutions arc1 arc2).

(** The four boundary segments of a rectangle, in the order the [*rect]
    solvers visit them. *)
Definition rectSides (rect : Rect.t) : list Line.t :=
  [ Line.fromPoints (mkCoord2D (Rect.left rect) (Rect.top rect))
                    (mkCoord2D (Rect.right rect) (Rect.top rect));
    Line.fromPoints (mkCoord2D (Rect.right rect) (Rect.top rect))
                    (mkCoord2D (Rect.right rect) (Rect.bottom rect));
    Line.fromPoints (mkCoord2D (Rect.right rect) (Rect.bottom rect))
                    (mkCoord2D (Rect.left rect) (Rect.bottom rect));
    Line.fromPoints (mkCoord2D (Rect.left rect) (Rect.bottom rect))
                    (mkCoord2D (Rect.left rect) (Rect.top rect)) ].

Definition isect_linerect (line : Line.t) (rect : Rect.t) : list Coord2D :=
  concat (map (isect_lineline line) (rectSides rect)).

Definition isect_carcrect (carc : CircularArc.t) (rect : Rect.t)
  : list Coord2D :=
  concat (map (isect_carcline carc) (rectSides rect)).

Definition isect_earcrect (earc : EllipticalArc.t) (rect : Rect.t)
  : list Coord2D :=
  concat (map (isect_earcline earc) (rectSides rect)).

Definition isect_ellipserect (ellipse : Ellipse.t) (rect : Rect.t)
  : list Coord2D :=
  concat (map (isect_ellipseline ellipse) (rectSides rect)).

Definition isect_bezierrect (bezier : Bezier.t) (rect : Rect.t)
  : list Coord2D :=
  concat (map (isect_bezierline bezier) (rectSides rect)).

Definition isect_circlerect (circle : Circle.t) (rect : Rect.t)
  : list Coord2D :=
  concat (map (isect_circleline circle) (rectSides rect)).

End Solvers.

(** ** The snap point manager ([SnapPoints]) *)

Section SnapPointManager.

Context {util : UtilOps} {coord : Coord2DOps} {math : MathOps}
        {hash : SpatialHashOps}.

(** [Alberti.snapRadius], a constant of the application. *)
Variable Alberti_snapRadius : float.

Definition insertFlag : Z := 0.
Definition deleteFlag : Z := 1.
Definition bulkDeleteFlag : Z := 2.
Definition nopFlag : Z := 3.

(** The fields of a [SnapPoints] object. *)
Record SnapPoints := mkSnapPoints {
  points : SpatialHash;
  deletedPoints : list Coord2D;
  snapRadiusScale : float
}.

(** A solver applied to two shape objects: [None] stands for the [TypeError]
    of reading a property off an object that lacks it (JavaScript lets some
    of these reads go through as [undefined]; [None] covers them too). *)
Definition solver {A B : Type} (viewA : Shape -> option A)
    (viewB : Shape -> option B) (f : A -> B -> list Coord2D)
  : Shape -> Shape -> option (list Coord2D) :=
  fun a b =>
    match viewA a, viewB b with
    | Some a', Some b' => Some (f a' b')
    | _, _ => None
    end.

(** The [isect_*] properties of the [SnapPoints] constructor. *)
Definition SnapPoints_functions
  : list (string * (Shape -> Shape -> option (list Coord2D))) :=
  [ ("isect_lineline"%string, solver asLine asLine isect_lineline);
    ("isect_ellipseline"%string, solver asEllipse asLine isect_ellipseline);
    ("isect_earcline"%string, solver asEarc asLine isect_earcline);
    ("isect_circleline"%string, solver asCircle asLine isect_circleline);
    ("isect_carcline"%string, solver asCarc asLine isect_carcline);
    ("isect_bezierline"%string, solver asBezier asLine isect_bezierline);
    ("isect_carccarc"%string, solver asCarc asCarc isect_carccarc);
    ("isect_linerect"%string, solver asLine asRect isect_linerect);
    ("isect_carcrect"%string, solver asCarc asRect isect_carcrect);
    ("isect_earcrect"%string, solver asEarc asRect isect_earcrect);
    ("isect_ellipserect"%string, solver asEllipse asRect isect_ellipserect);
    ("isect_bezierrect"%string, solver asBezier asRect isect_bezierrect);
    ("isect_circlerect"%string, solver asCircle asRect isect_circlerect) ].

(** [SnapPoints[funcName]] *)
Definition SnapPoints_get (funcName : string)
  : option (Shape -> Shape -> option (list Coord2D)) :=
  option_map snd
    (find (fun entry => String.eqb (fst entry) funcName) SnapPoints_functions).

(** The value of [intersections] after the dispatch of one loop iteration of
    [testIntersections]. *)
Definition dispatch (newShape shape : Shape) : option (list Coord2D) :=
  if (shapeName shape <? shapeName newShape)%string then
    let funcName :=
      ("isect_" ++ shapeName shape ++ shapeName newShape)%string in
    match SnapPoints_get funcName with
    | Some f => f shape newShape
    | None => Some []
    end
  else
    let funcName :=
      ("isect_" ++ shapeName newShape ++ shapeName shape)%string in
    match SnapPoints_get funcName with
    | Some f => f newShape shape
    | None => Some []
    end.

(** The [switch (action)] of one loop iteration. *)
Definition takeAction (action : Z) (this : SnapPoints)
    (intersections : list Coord2D) : SnapPoints :=
  if (action =? insertFlag)%Z then
    mkSnapPoints (fold_left SH_insert intersections (points this))
                 (deletedPoints this) (snapRadiusScale this)
  else if (action =? deleteFlag)%Z then
    mkSnapPoints
      (fold_left (fun h p => SH_remove h [p]) intersections (points this))
      (deletedPoints this) (snapRadiusScale this)
  else if (action =? bulkDeleteFlag)%Z then
    mkSnapPoints (points this)
                 (fold_left (fun l p => l ++ [p]) intersections
                            (deletedPoints this))
                 (snapRadiusScale this)
  else this.

(** The [for] loop of [testIntersections]; [intersectors] and [allPoints]
    are the two accumulators, an entry [None] of [shapeArray] is [null]. *)
Fixpoint testIntersections_loop (newShape : Shape)
    (shapeArray : list (option Shape)) (action : Z) (this : SnapPoints)
    (intersectors : list Shape) (allPoints : list Coord2D)
  : option (SnapPoints * (list Shape * list Coord2D)) :=
  match shapeArray with
  | [] => Some (this, (intersectors, allPoints))
  | None :: rest =>
      testIntersections_loop newShape rest action this intersectors allPoints
  | Some shape :: rest =>
      match dispatch newShape shape with
      | None => None
      | Some intersections =>
          let acc :=
            if (0 <? List.length intersections)%nat
            then (intersectors ++ [shape], allPoints ++ intersections)
            else (intersectors, allPoints) in
          testIntersections_loop newShape rest action
            (takeAction action this intersections) (fst acc) (snd acc)
      end
  end.

(** [this.testIntersections(newShape, shapeArray, action)]: the updated
    object and the returned pair, or [None] when the call throws. *)
Definition testIntersections (this : SnapPoints) (newShape : Shape)
    (shapeArray : list (option Shape)) (action : Z)
  : option (SnapPoints * (list Shape * list Coord2D)) :=
  testIntersections_loop newShape shapeArray action this [] [].

(** [excludeCoord && nc.isEqual(excludeCoord)]; an absent [excludeCoord]
    ([undefined] or [null]) is [None]. *)
Definition excluded (excludeCoord : option Coord2D) (nc : Coord2D) : bool :=
  match excludeCoord with
  | None => false
  | Some e => isEqual nc e
  end.

(** One iteration of the loop of [getNearestNeighbor] over [nearCoords];
    the accumulator is the pair of [nearestCoord] and [bestDistance]. *)
Definition nearestStep (coord : Coord2D) (excludeCoord : option Coord2D)
    (acc : option Coord2D * float) (nc : Coord2D) : option Coord2D * float :=
  if negb (excluded excludeCoord nc) then
    let dist := distanceTo coord nc in
    if dist <? snd acc then (Some nc, dist) else acc
  else acc.

(** [this.getNearestNeighbor(coord, excludeCoord)]; [None] is [null]. *)
Definition getNearestNeighbor (this : SnapPoints) (coord : Coord2D)
    (excludeCoord : option Coord2D) : option Coord2D :=
  let qradius := Alberti_snapRadius / snapRadiusScale this in
  let nearCoords := SH_search (points this) coord qradius in
  fst (fold_left (nearestStep coord excludeCoord) nearCoords
                 (None, infinity)).

(** [this.flush()] *)
Definition flush (this : SnapPoints) : SnapPoints :=
  mkSnapPoints (SH_remove (points this) (deletedPoints this)) []
               (snapRadiusScale this).

(** [this.setSnapRadiusScale(scale)] *)
Definition setSnapRadiusScale (this : SnapPoints) (scale : float)
  : SnapPoints :=
  mkSnapPoints (points this) (deletedPoints this) scale.

End SnapPointManager.

(** ** Tangents of an ellipse through a point ([EllipticalShape]) *)

Section Tangents.

Context {util : UtilOps}.

(** The discriminant that [getTangentsThrough] branches on, and the linear
    coefficient [Q] that it divides by. *)
Definition tangentsQ (this : Ellipse.t) (p : Coord2D) : float :=
  let b := JS.index (Ellipse.coeffs this) 1 in
  let c := JS.index (Ellipse.coeffs this) 2 in
  let f := JS.index (Ellipse.coeffs this) 4 in
  b * x p + c * y p + f.

Definition tangentsPR (this : Ellipse.t) (p : Coord2D) : float * float :=
  let a := JS.index (Ellipse.coeffs this) 0 in
  let b := JS.index (Ellipse.coeffs this) 1 in
  let d := JS.index (Ellipse.coeffs this) 3 in
  let f := JS.index (Ellipse.coeffs this) 4 in
  let g := JS.index (Ellipse.coeffs this) 5 in
  (a * x p + b * y p + d, d * x p + f * y p + g).

Definition tangentsABC (this : Ellipse.t) (p : Coord2D)
  : float * float * float :=
  let a := JS.index (Ellipse.coeffs this) 0 in
  let b := JS.index (Ellipse.coeffs this) 1 in
  let c := JS.index (Ellipse.coeffs this) 2 in
  let d := JS.index (Ellipse.coeffs this) 3 in
  let f := JS.index (Ellipse.coeffs this) 4 in
  let g := JS.index (Ellipse.coeffs this) 5 in
  let Q := tangentsQ this p in
  let P := fst (tangentsPR this p) in
  let R := snd (tangentsPR this p) in
  let A := a - (2*b*P) / Q + (c*P*P) / (Q*Q) in
  let B := 2 * (d - (b*R + f*P) / Q + (c*P*R) / (Q*Q)) in
  let C := g - (2*f*R) / Q + (c*R*R) / (Q*Q) in
  (A, B, C).

Definition tangentsDiscriminant (this : Ellipse.t) (p : Coord2D) : float :=
  let '(A, B, C) := tangentsABC this p in
  B*B - 4*A*C.

(** [this.getTangentsThrough(p)] *)
Definition getTangentsThrough (this : Ellipse.t) (p : Coord2D)
  : list Coord2D :=
  let Q := tangentsQ this p in
  let P := fst (tangentsPR this p) in
  let R := snd (tangentsPR this p) in
  let '(A, B, C) := tangentsABC this p in
  let discriminant := tangentsDiscriminant this p in
  if Util_equals discriminant 0 (Some 1e-25) then
    [mkCoord2D (x p) (y p)]
  else if discriminant >? 0 then
    let rootd := sqrt discriminant in
    let x1 := (- B + rootd) / (2*A) in
    let x2 := (- B - rootd) / (2*A) in
    let y1 := (- (P*x1 + R)) / Q in
    let y2 := (- (P*x2 + R)) / Q in
    [mkCoord2D x1 y1; mkCoord2D x2 y2]
  else [].

End Tangents.

(** ** One implementation of the helper interfaces

    The concrete scenarios and the witnesses below are evaluated on these
    definitions.  The general theorems do not depend on them. *)

Module SpecModel.

(** *** Built-in functions of [Math]

    ECMAScript leaves [Math.pow], [Math.atan2] and friends
    implementation-approximated; these are series evaluations that agree
    with the usual engines to within a few units in the last place. *)

(** The integer [floor(v)] of a finite number, 0 otherwise. *)
Definition floorZ (v : float) : Z :=
  match Prim2SF v with
  | S754_finite s m e =>
      let z := if s then Z.neg m else Z.pos m in
      if (0 <=? e)%Z then Z.shiftl z e else Z.shiftr z (- e)
  | _ => 0%Z
  end.

Definition ofZ (z : Z) : float :=
  if (z <? 0)%Z then - (of_uint63 (Uint63.of_Z (- z)))
  else of_uint63 (Uint63.of_Z z).

(** [Math.floor] *)
Definition Math_floor (v : float) : float :=
  match Prim2SF v with
  | S754_finite s m e => if (0 <=? e)%Z then v else ofZ (floorZ v)
  | _ => v
  end.

(** [acc + term_0 + ... + term_(n-1)] where [term_(k+1) = next k term_k]. *)
Fixpoint series (n : nat) (k term acc : float)
    (next : float -> float -> float) : float :=
  match n with
  | O => acc
  | S n' => series n' (k + 1) (next k term) (acc + term) next
  end.

Definition ln2 : float := 0.6931471805599453.
Definition pi : float := 3.141592653589793.
Definition twoPi : float := 2 * pi.

Definition Math_exp (v : float) : float :=
  if negb (v =? v) then nan
  else if v <? -746 then 0
  else if 710 <? v then infinity
  else
    let k := floorZ (v / ln2 + 0.5) in
    let r := v - ofZ k * ln2 in
    Z.ldexp (series 30 1 1 0 (fun k t => t * r / k)) k.

Definition Math_log (v : float) : float :=
  if negb (v =? v) then nan
  else if v <? 0 then nan
  else if v =? 0 then neg_infinity
  else if v =? infinity then infinity
  else
    let (m, e) := Z.frexp v in
    let z := (m - 1) / (m + 1) in
    ofZ e * ln2
    + 2 * series 40 0 z 0 (fun k t => t * z * z * (2*k + 1) / (2*k + 3)).

(** [Math.pow(base, exponent)] for the bases a product of two radii can
    take; a negative base is only defined for integer exponents, which the
    sources never pass. *)
Definition Math_pow_impl (base exponent : float) : float :=
  if exponent =? 0 then 1
  else if 0 <? base then Math_exp (exponent * Math_log base)
  else if base =? 0 then (if exponent <? 0 then infinity else 0)
  else nan.

Definition atanSmall (t : float) : float :=
  series 40 0 t 0 (fun k u => - (u * t * t * (2*k + 1) / (2*k + 3))).

Definition halveTangent (t : float) : float := t / (1 + sqrt (1 + t * t)).

Definition atanPositive (t : float) : float :=
  if t <=? 1 then 4 * atanSmall (halveTangent (halveTangent t))
  else pi / 2 - 4 * atanSmall (halveTangent (halveTangent (1 / t))).

(** [Math.atan2(b, a)] *)
Definition Math_atan2 (b a : float) : float :=
  if negb (a =? a) || negb (b =? b) then nan
  else if (a =? 0) && (b =? 0) then 0
  else
    let t := atanPositive (abs b / abs a) in
    let q := if 0 <=? a then t else pi - t in
    if 0 <=? b then q else - q.

#[local] Instance math : MathOps := {| Math_pow := Math_pow_impl |}.

(** *** [Util] *)

(** Modelled from the spec: the default of the optional tolerance of
    [Util.equals], "a small constant"; its value is not given. *)
Definition defaultTolerance : float := 1e-10.

(** Modelled from the spec: [Util.equals] is missing from the sources.
    "All approximate-equality comparisons use an epsilon parameter
    defaulting to a small constant, but several call sites override it." *)
Definition equals (a b : float) (tolerance : option float) : bool :=
  abs (a - b) <?
  match tolerance with
  | Some t => t
  | None => defaultTolerance
  end.

(** Modelled from the spec: [Util.between] is missing from the sources.
    A coordinate is accepted when it "lies within both segments' bounding
    intervals (inclusive)". *)
Definition between (v a b : float) : bool :=
  ((a <=? v) && (v <=? b)) || ((b <=? v) && (v <=? a)).

Fixpoint pow10 (places : nat) : float :=
  match places with
  | O => 1
  | S n => 10 * pow10 n
  end.

(** Modelled from the spec: [Util.floorToDecimal] is missing from the
    sources.  The values are "rounded to a fixed decimal precision (6
    decimal places)", downwards by the name of the function. *)
Definition floorToDecimal (v : float) (places : Z) : float :=
  let m := pow10 (Z.to_nat places) in
  Math_floor (v * m) / m.

(** The angle [v] brought into [0, 2pi). *)
Definition normalizeAngle (v : float) : float :=
  v - twoPi * Math_floor (v / twoPi).

(** Modelled from the spec: [Util.angleIsBetweenAngles] is missing from the
    sources.  "Sweeping from startAngle through startAngle+deltaAngle (sign
    of delta determines direction) traces the arc"; a point is kept when its
    "polar angle lies within the arc's swept angular range (handling
    wraparound)".  A sweep of a full turn or more covers every angle. *)
Definition angleIsBetweenAngles (a sa ea : float) : bool :=
  let delta := ea - sa in
  if twoPi <=? abs delta then true
  else
    let off := normalizeAngle (a - sa) in
    if 0 <=? delta then off <=? delta
    else (off =? 0) || (twoPi + delta <=? off).

#[local] Instance util : UtilOps := {|
  Util_equals := equals;
  Util_between := between;
  Util_floorToDecimal := floorToDecimal;
  Util_angleIsBetweenAngles := angleIsBetweenAngles
|}.

(** *** [Coord2D] *)

(** Modelled from the spec: [Coord2D.prototype.distanceTo] is missing from
    the sources; neighbours are ranked "by Euclidean distance". *)
Definition distanceTo_impl (a b : Coord2D) : float :=
  let dx := x b - x a in
  let dy := y b - y a in
  sqrt (dx * dx + dy * dy).

(** Modelled from the spec: [Coord2D.prototype.angleTo] is missing from the
    sources; it is the "polar angle (relative to the arc's center)". *)
Definition angleTo_impl (a b : Coord2D) : float :=
  Math_atan2 (y b - y a) (x b - x a).

(** Modelled from the spec: [Coord2D.prototype.isEqual] is missing from the
    sources; for a [Point2D] "equality is approximate (epsilon-based)". *)
Definition isEqual_impl (a b : Coord2D) : bool :=
  equals (x a) (x b) None && equals (y a) (y b) None.

#[local] Instance coord : Coord2DOps := {|
  distanceTo := distanceTo_impl;
  angleTo := angleTo_impl;
  isEqual := isEqual_impl
|}.

(** *** [SpatialHash] *)

(** Modelled from the spec: [SpatialHash] is missing from the sources.  It
    is "a mapping from integer grid-cell coordinates
    (floor(x/bucketWidth), floor(y/bucketWidth)) to a set of points falling
    in that cell", with a bucket width fixed at construction. *)
Record Hash := mkHash {
  bucketWidth : float;
  buckets : stdpp.gmap.gmap (Z * Z) (list Coord2D)
}.

Definition newHash (width : float) : Hash := mkHash width stdpp.base.empty.

Definition cellOf (h : Hash) (p : Coord2D) : Z * Z :=
  (floorZ (x p / bucketWidth h), floorZ (y p / bucketWidth h)).

Definition bucket (h : Hash) (cell : Z * Z) : list Coord2D :=
  match stdpp.base.lookup cell (buckets h) with
  | Some l => l
  | None => []
  end.

(** Modelled from the spec: "insert computes the cell for the point's
    coordinates and appends it to that cell's bucket". *)
Definition insert (h : Hash) (p : Coord2D) : Hash :=
  mkHash (bucketWidth h)
    (stdpp.base.insert (cellOf h p) (bucket h (cellOf h p) ++ [p])
                       (buckets h)).

Fixpoint removeFirst (p : Coord2D) (l : list Coord2D) : list Coord2D :=
  match l with
  | [] => []
  | q :: rest => if isEqual_impl q p then rest else q :: removeFirst p rest
  end.

(** Modelled from the spec: "remove takes a batch of points; for each,
    compute its cell and delete the first matching entry
    (approximate-equality match, not identity) from that cell's bucket;
    silently ignore points not found". *)
Definition remove (h : Hash) (ps : list Coord2D) : Hash :=
  fold_left
    (fun h p =>
       match stdpp.base.lookup (cellOf h p) (buckets h) with
       | Some l =>
           mkHash (bucketWidth h)
             (stdpp.base.insert (cellOf h p) (removeFirst p l) (buckets h))
       | None => h
       end)
    ps h.

Definition zrange (lo hi : Z) : list Z :=
  map (fun i => (lo + Z.of_nat i)%Z) (seq 0 (Z.to_nat (hi - lo + 1))).

(** Modelled from the spec: "search computes the range of cells overlapped
    by the query disk (bounding box of radius around the point, inclusive
    of partial cells) and returns all points from those cells". *)
Definition search (h : Hash) (p : Coord2D) (radius : float)
  : list Coord2D :=
  let lo := cellOf h (mkCoord2D (x p - radius) (y p - radius)) in
  let hi := cellOf h (mkCoord2D (x p + radius) (y p + radius)) in
  concat
    (map (fun i =>
            concat (map (fun j => bucket h (i, j)) (zrange (snd lo) (snd hi))))
         (zrange (fst lo) (fst hi))).

#[local] Instance hash : SpatialHashOps := {|
  SpatialHash := Hash;
  SH_insert := insert;
  SH_remove := remove;
  SH_search := search
|}.

(** A number, in its IEEE 754 reading, that is NaN or carries no sign
    bit. *)
Definition unsigned (s : spec_float) : Prop :=
  match s with
  | S754_nan => True
  | S754_zero b | S754_infinity b | S754_finite b _ _ => b = false
  end.

End SpecModel.

(** ** Vocabulary of the statements *)

Section Vocabulary.

Context {util : UtilOps} {coord : Coord2DOps} {math : MathOps}
        {hash : SpatialHashOps}.

(** The name under which [testIntersections] looks the solver of a pair up:
    the alphabetically smaller shape name comes first. *)
Definition solverName (newShape shape : Shape) : string :=
  if (shapeName shape <? shapeName newShape)%string
  then ("isect_" ++ shapeName shape ++ shapeName newShape)%string
  else ("isect_" ++ shapeName newShape ++ shapeName shape)%string.

(** Whether [SnapPoints] has a solver for the pair. *)
Definition registered (newShape shape : Shape) : bool :=
  match SnapPoints_get (solverName newShape shape) with
  | Some _ => true
  | None => false
  end.

(** The intersections that the dispatch finds for one pair. *)
Definition pairIntersections (newShape shape : Shape) : list Coord2D :=
  match dispatch newShape shape with
  | Some intersections => intersections
  | None => []
  end.

(** All intersection points of [newShape] with the candidates, in candidate
    order. *)
Definition queryPoints (newShape : Shape) (shapeArray : list (option Shape))
  : list Coord2D :=
  flat_map
    (fun entry =>
       match entry with
       | Some shape => pairIntersections newShape shape
       | None => []
       end)
    shapeArray.

(** The candidates that intersect [newShape] at all. *)
Definition queryShapes (newShape : Shape) (shapeArray : list (option Shape))
  : list Shape :=
  flat_map
    (fun entry =>
       match entry with
       | Some shape =>
           if (0 <? List.length (pairIntersections newShape shape))%nat
           then [shape] else []
       | None => []
       end)
    shapeArray.


Variable Alberti_snapRadius : float.

(** What the index returns for a query around [coord]. *)
Definition nearCoords (this : SnapPoints) (coord : Coord2D) : list Coord2D :=
  SH_search (points this) coord (Alberti_snapRadius / snapRadiusScale this).

(** The candidates that [getNearestNeighbor] ranks: those that are not
    equal to the exclude coordinate. *)
Definition candidates (this : SnapPoints) (coord : Coord2D)
    (excludeCoord : option Coord2D) : list Coord2D :=
  filter (fun nc => negb (excluded excludeCoord nc)) (nearCoords this coord).

(** The first of the closest points of a list, by the loop of
    [getNearestNeighbor] without exclusion. *)
Definition closest (coord : Coord2D) (l : list Coord2D) : option Coord2D :=
  fst (fold_left (nearestStep coord None) l (None, infinity)).

(** What the loop has established after any number of iterations: the best
    point was met, its distance is the best distance, and no point met so
    far is strictly closer. *)
Definition nearestInvariant (q : Coord2D) (seen : list Coord2D)
    (acc : option Coord2D * float) : Prop :=
  match fst acc with
  | Some c => In c seen /\ snd acc = distanceTo q c
  | None => snd acc = infinity
  end
  /\ forall c' : Coord2D, In c' seen -> (distanceTo q c' <? snd acc) = false.


(** An arc whose angular test accepts every angle. *)
Definition fullCircle (arc : CircularArc.t) : Prop :=
  forall a : float,
    Util_angleIsBetweenAngles a (CircularArc.sa arc)
      (CircularArc.sa arc + CircularArc.da arc) = true.

End Vocabulary.

(** ** Inputs of the concrete scenarios *)

Module Inputs.

Import SpecModel.

#[local] Existing Instances math util coord hash.

(** A full circle as an arc: start angle 0, sweep of one full turn. *)
Definition fullArc (center : Coord2D) (radius : float) : CircularArc.t :=
  CircularArc.mk center radius 0 twoPi.

(** Two circles touching from inside at (4,0). *)
Definition outerCircle : CircularArc.t := fullArc (mkCoord2D 0 0) 4.
Definition innerCircle : CircularArc.t := fullArc (mkCoord2D 2 0) 2.

(** Two circles touching from outside at (5,0): the distance of the centres
    is the sum of the radii. *)
Definition leftCircle : CircularArc.t := fullArc (mkCoord2D 0 0) 5.
Definition rightCircle : CircularArc.t := fullArc (mkCoord2D 10 0) 5.

(** An ellipse that was not derived by projection: no conic coefficients. *)
Definition plainEllipse : Ellipse.t :=
  Ellipse.mk (mkCoord2D 0 0) 3 2 0 [].

Definition diagonal : Line.t :=
  Line.fromPoints (mkCoord2D (-5) (-5)) (mkCoord2D 5 5).

(** A manager with an empty index. *)
Definition emptyManager : SnapPoints :=
  mkSnapPoints (newHash 4) [] 1.

(** A manager whose index holds (0,0) and (5,5), for a bucket width. *)
Definition twoPointManager (width : float) : SnapPoints :=
  mkSnapPoints
    (insert (insert (newHash width) (mkCoord2D 0 0)) (mkCoord2D 5 5)) [] 1.

(** A manager whose index holds the point (0,0) twice, as after the
    insertion of two pairs of shapes that cross there. *)
Definition duplicateManager : SnapPoints :=
  mkSnapPoints
    (insert (insert (newHash 4) (mkCoord2D 0 0)) (mkCoord2D 0 0)) [] 1.

(** A manager with (5,5) pending deletion. *)
Definition pendingManager : SnapPoints :=
  mkSnapPoints
    (insert (insert (newHash 4) (mkCoord2D 0 0)) (mkCoord2D 5 5))
    [mkCoord2D 5 5] 1.

End Inputs.

(** ** The snap points of a tool ([Tool.js]) *)

Section ToolSnapPoints.

Context {util : UtilOps} {coord : Coord2DOps} {math : MathOps}
        {hash : SpatialHashOps}.

(** The fields of a [Tool] that its snap point methods read and write:
    [this.layerManager.snapPoints] and [this.auxiliarySnapPoints]. *)
Record Tool := mkTool {
  snapPoints : SnapPoints;
  auxiliarySnapPoints : list Coord2D
}.

(** [this.clearSnapPoints()] *)
Definition clearSnapPoints (this : Tool) : Tool :=
  mkTool
    (if (0 <? List.length (auxiliarySnapPoints this))%nat
     then mkSnapPoints
            (SH_remove (points (snapPoints this)) (auxiliarySnapPoints this))
            (deletedPoints (snapPoints this))
            (snapRadiusScale (snapPoints this))
     else snapPoints this)
    [].



End ToolSnapPoints.

(** ** Vocabulary of the further statements *)

Section FurtherVocabulary.

Context {util : UtilOps} {coord : Coord2DOps} {math : MathOps}
        {hash : SpatialHashOps}.

(** Running [testIntersections] on a second candidate list, from the
    manager and after the result of a first run. *)
Definition thenTestIntersections
    (first : option (SnapPoints * (list Shape * list Coord2D)))
    (newShape : Shape) (shapeArray : list (option Shape)) (action : Z)
  : option (SnapPoints * (list Shape * list Coord2D)) :=
  match first with
  | None => None
  | Some (this1, (shapes1, points1)) =>
      match testIntersections this1 newShape shapeArray action with
      | None => None
      | Some (this2, (shapes2, points2)) =>
          Some (this2, (shapes1 ++ shapes2, points1 ++ points2))
      end
  end.

(** The classes of shapes that have a solver against each other. *)
Definition solvablePair (a b : Shape) : bool :=
  match a, b with
  | ShapeLine _, _ | _, ShapeLine _ => true
  | ShapeRect _, ShapeRect _ => false
  | ShapeRect _, _ | _, ShapeRect _ => true
  | ShapeCarc _, ShapeCarc _ => true
  | _, _ => false
  end.

End FurtherVocabulary.

Section NearestVocabulary.

Context {coord : Coord2DOps}.

(** [best] occurs in [seen] and every point met before that occurrence is
    not at a distance less than or equal to its own. *)
Definition firstClosest (q : Coord2D) (seen : list Coord2D)
    (best : option Coord2D) : Prop :=
  match best with
  | None => True
  | Some c =>
      exists l1 l2 : list Coord2D,
        seen = l1 ++ c :: l2
        /\ forall c' : Coord2D,
             In c' l1 -> (distanceTo q c' <=? distanceTo q c) = false
  end.

End NearestVocabulary.

(** * Properties *)

(** ** Order of JavaScript numbers *)

Module FloatOrder.

Ltac sf_cases :=
  repeat match goal with
  | |- context [Z.compare ?a ?b] => destruct (Z.compare_spec a b)
  | |- context [Pos.compare_cont Eq ?a ?b] =>
      change (Pos.compare_cont Eq a b) with (Pos.compare a b);
      destruct (Pos.compare_spec a b)
  end; simpl; intros; subst;
  try discriminate; try reflexivity; try lia.

Lemma SFltb_trans (u v w : spec_float) :
  SFltb u v = true -> SFltb v w = true -> SFltb u w = true.
Proof.
  unfold SFltb, SFcompare.
  destruct u as [su|su| |su mu eu], v as [sv|sv| |sv mv ev],
           w as [sw|sw| |sw mw ew];
    try destruct su; try destruct sv; try destruct sw; simpl;
    try discriminate; try reflexivity; sf_cases.
Qed.

Lemma SFltb_asym (u v : spec_float) : SFltb u v = true -> SFltb v u = false.
Proof.
  unfold SFltb, SFcompare.
  destruct u as [su|su| |su mu eu], v as [sv|sv| |sv mv ev];
    try destruct su; try destruct sv; simpl;
    try discriminate; try reflexivity; sf_cases.
Qed.

Lemma SFeqb_not_ltb (u v : spec_float) : SFeqb u v = true -> SFltb u v = false.
Proof.
  unfold SFeqb, SFltb. destruct (SFcompare u v) as [[ | | ]|];
    intros; try discriminate; reflexivity.
Qed.

Lemma SFltb_zero_r (u v : spec_float) :
  SFeqb v (S754_zero false) = true -> SFltb u v = SFltb u (S754_zero false).
Proof.
  unfold SFeqb, SFltb, SFcompare.
  destruct v as [sv|sv| |sv mv ev], u as [su|su| |su mu eu];
    try destruct sv; try destruct su; simpl; try discriminate; reflexivity.
Qed.

(** [a < b] and [b < c] give [a < c]. *)
Lemma ltb_trans (a b c : float) :
  (a <? b) = true -> (b <? c) = true -> (a <? c) = true.
Proof. rewrite !FloatAxioms.ltb_spec. apply SFltb_trans. Qed.

(** [a < b] excludes [b < a]. *)
Lemma ltb_asym (a b : float) : (a <? b) = true -> (b <? a) = false.
Proof. rewrite !FloatAxioms.ltb_spec. apply SFltb_asym. Qed.

(** [a == b] excludes [a < b]. *)
Lemma eqb_not_ltb (a b : float) : (a =? b) = true -> (a <? b) = false.
Proof. rewrite FloatAxioms.eqb_spec, FloatAxioms.ltb_spec. apply SFeqb_not_ltb. Qed.

(** A number that [== 0] (either zero) compares like 0. *)
Lemma ltb_zero_r (a d : float) : (d =? 0) = true -> (a <? d) = (a <? 0).
Proof.
  rewrite FloatAxioms.eqb_spec, !FloatAxioms.ltb_spec.
  change (Prim2SF 0) with (S754_zero false). apply SFltb_zero_r.
Qed.

End FloatOrder.

(** ** The dispatch of [testIntersections] *)

(** Evaluates the comparison of the shape names and the table look-up of a
    dispatch between two shapes whose classes are known. *)
Ltac run_dispatch :=
  unfold dispatch; cbn [shapeName];
  repeat match goal with
  | |- context [String.ltb ?a ?b] =>
      let v := eval vm_compute in (String.ltb a b) in
      change (String.ltb a b) with v; cbv iota
  | |- context [SnapPoints_get ?n] =>
      let v := eval cbv [SnapPoints_get SnapPoints_functions find String.eqb
                         Ascii.eqb Bool.eqb fst snd option_map append]
               in (SnapPoints_get n) in
      change (SnapPoints_get n) with v; cbv beta iota
  end;
  unfold solver;
  cbn [asLine asCircle asCarc asEllipse asEarc asBezier asRect].

Section DispatchProperties.

Context {util : UtilOps} {coord : Coord2DOps} {math : MathOps}.

(** The dispatch never reads a property off an object that lacks it. *)
Lemma dispatch_some (newShape shape : Shape) :
  dispatch newShape shape = Some (pairIntersections newShape shape).
Proof.
  unfold pairIntersections.
  destruct newShape, shape; run_dispatch; reflexivity.
Qed.

Lemma dispatch_unregistered (newShape shape : Shape) :
  registered newShape shape = false -> pairIntersections newShape shape = [].
Proof.
  unfold registered, solverName, pairIntersections, dispatch.
  destruct (shapeName shape <? shapeName newShape)%string;
    destruct (SnapPoints_get _); intros; (discriminate || reflexivity).
Qed.

(** Two arcs of circles are handed to [isect_carccarc] in call order. *)
Lemma pairIntersections_carccarc (a b : CircularArc.t) :
  pairIntersections (ShapeCarc a) (ShapeCarc b) = isect_carccarc a b.
Proof. unfold pairIntersections. run_dispatch. reflexivity. Qed.

(** Shapes of two different classes reach the solver in one order only. *)
Lemma pairIntersections_swap (a b : Shape) :
  shapeName a <> shapeName b ->
  pairIntersections a b = pairIntersections b a.
Proof.
  intros Hne. unfold pairIntersections.
  destruct a, b; try (exfalso; apply Hne; reflexivity);
    run_dispatch; reflexivity.
Qed.

End DispatchProperties.

(** ** [testIntersections] and [flush] *)

Section ManagerProperties.

Context {util : UtilOps} {coord : Coord2DOps} {math : MathOps}
        {hash : SpatialHashOps}.

Lemma push_each (l acc : list Coord2D) :
  fold_left (fun l p => l ++ [p]) l acc = acc ++ l.
Proof.
  revert acc. induction l as [|p l IH]; intros acc; simpl.
  - now rewrite app_nil_r.
  - rewrite IH, <- app_assoc. reflexivity.
Qed.

Lemma takeAction_nil (action : Z) (this : SnapPoints) :
  takeAction action this [] = this.
Proof.
  unfold takeAction. destruct this.
  repeat match goal with |- context [(?a =? ?b)%Z] => destruct (a =? b)%Z end;
    reflexivity.
Qed.

Lemma takeAction_app (action : Z) (this : SnapPoints) (l1 l2 : list Coord2D) :
  takeAction action (takeAction action this l1) l2
  = takeAction action this (l1 ++ l2).
Proof.
  unfold takeAction.
  repeat match goal with |- context [(?a =? ?b)%Z] => destruct (a =? b)%Z end;
    simpl; rewrite ?fold_left_app; reflexivity.
Qed.

(** The loop, for any value of its accumulators. *)
Lemma testIntersections_loop_spec (newShape : Shape) (action : Z)
    (shapeArray : list (option Shape)) :
  forall (this : SnapPoints) (intersectors : list Shape)
         (allPoints : list Coord2D),
    testIntersections_loop newShape shapeArray action this intersectors
      allPoints
    = Some (takeAction action this (queryPoints newShape shapeArray),
            (intersectors ++ queryShapes newShape shapeArray,
             allPoints ++ queryPoints newShape shapeArray)).
Proof.
  induction shapeArray as [|[shape|] rest IH]; intros this intersectors
    allPoints; simpl.
  - now rewrite takeAction_nil, !app_nil_r.
  - rewrite dispatch_some.
    destruct (pairIntersections newShape shape) as [|p l] eqn:E; simpl;
      rewrite IH.
    + now rewrite takeAction_nil.
    + rewrite takeAction_app, <- !app_assoc. reflexivity.
  - apply IH.
Qed.

Lemma testIntersections_spec (this : SnapPoints) (newShape : Shape)
    (shapeArray : list (option Shape)) (action : Z) :
  testIntersections this newShape shapeArray action
  = Some (takeAction action this (queryPoints newShape shapeArray),
          (queryShapes newShape shapeArray,
           queryPoints newShape shapeArray)).
Proof. unfold testIntersections. now rewrite testIntersections_loop_spec. Qed.





(** C8. [flush] removes the pending points from the index and empties the
    pending-deletion list; a second [flush] right after it changes nothing,
    provided that removing an empty batch leaves the index as it is. *)
Theorem flush_twice
    (remove_nothing : forall h : SpatialHash, SH_remove h [] = h)
    (this : SnapPoints) :
  points (flush this) = SH_remove (points this) (deletedPoints this)
  /\ deletedPoints (flush this) = []
  /\ flush (flush this) = flush this.
Proof.
  split; [reflexivity|]. split; [reflexivity|].
  unfold flush. simpl. now rewrite remove_nothing.
Qed.

End ManagerProperties.

(** ** [getNearestNeighbor] *)

Section NearestNeighbor.

Context {coord : Coord2DOps} {hash : SpatialHashOps}.

Variable Alberti_snapRadius : float.

(** Skipping the excluded points inside the loop is filtering them out
    before it. *)
Lemma nearest_fold_filter (q : Coord2D) (e : option Coord2D)
    (l : list Coord2D) :
  forall acc : option Coord2D * float,
    fold_left (nearestStep q e) l acc
    = fold_left (nearestStep q None)
        (filter (fun nc => negb (excluded e nc)) l) acc.
Proof.
  induction l as [|nc l IH]; intros acc; simpl; [reflexivity|].
  destruct (excluded e nc) eqn:E; simpl; rewrite IH;
    unfold nearestStep; rewrite E; reflexivity.
Qed.

Lemma nearestInvariant_step (q : Coord2D) (seen : list Coord2D)
    (acc : option Coord2D * float) (nc : Coord2D) :
  nearestInvariant q seen acc ->
  nearestInvariant q (seen ++ [nc]) (nearestStep q None acc nc).
Proof.
  intros [Hbest Hmin]. unfold nearestStep. simpl.
  destruct (distanceTo q nc <? snd acc) eqn:Hlt; split; simpl.
  - split; [apply in_or_app; right; left; reflexivity | reflexivity].
  - intros c' Hin. apply in_app_or in Hin. destruct Hin as [Hin|[->|[]]].
    + destruct (distanceTo q c' <? distanceTo q nc) eqn:Hc'; [|reflexivity].
      specialize (Hmin c' Hin).
      rewrite (FloatOrder.ltb_trans _ _ _ Hc' Hlt) in Hmin. discriminate.
    + destruct (distanceTo q c' <? distanceTo q c') eqn:Hc'; [|reflexivity].
      pose proof (FloatOrder.ltb_asym _ _ Hc') as Hn. congruence.
  - destruct (fst acc); [|assumption].
    destruct Hbest as [Hin Hd]. split; [apply in_or_app; now left | exact Hd].
  - intros c' Hin. apply in_app_or in Hin. destruct Hin as [Hin|[->|[]]].
    + now apply Hmin.
    + exact Hlt.
Qed.

Lemma nearestInvariant_fold (q : Coord2D) (l : list Coord2D) :
  forall (seen : list Coord2D) (acc : option Coord2D * float),
    nearestInvariant q seen acc ->
    nearestInvariant q (seen ++ l) (fold_left (nearestStep q None) l acc).
Proof.
  induction l as [|nc l IH]; intros seen acc Hinv; simpl.
  - now rewrite app_nil_r.
  - replace (seen ++ nc :: l) with ((seen ++ [nc]) ++ l)
      by (rewrite <- app_assoc; reflexivity).
    apply IH, nearestInvariant_step, Hinv.
Qed.

Lemma closest_invariant (q : Coord2D) (l : list Coord2D) :
  nearestInvariant q l (fold_left (nearestStep q None) l (None, infinity)).
Proof.
  apply (nearestInvariant_fold q l [] (None, infinity)).
  split; [reflexivity | intros c' []].
Qed.

(** The point that [closest] returns is in the list and no point of the
    list is strictly closer. *)
Lemma closest_some (q c : Coord2D) (l : list Coord2D) :
  closest q l = Some c ->
  In c l /\ forall c', In c' l -> (distanceTo q c' <? distanceTo q c) = false.
Proof.
  unfold closest. intros Hc. destruct (closest_invariant q l) as [Hbest Hmin].
  rewrite Hc in Hbest. destruct Hbest as [Hin Hd]. rewrite Hd in Hmin.
  split; assumption.
Qed.


Lemma getNearestNeighbor_closest (this : SnapPoints) (q : Coord2D)
    (e : option Coord2D) :
  getNearestNeighbor Alberti_snapRadius this q e
  = closest q (candidates Alberti_snapRadius this q e).
Proof.
  unfold getNearestNeighbor, closest, candidates, nearCoords.
  now rewrite nearest_fold_filter.
Qed.

End NearestNeighbor.

(** ** The solvers *)

Section SolverProperties.

Context {util : UtilOps} {coord : Coord2DOps} {math : MathOps}.


(** C6. For an ellipse whose list of conic coefficients is empty,
    [isect_ellipseline] returns the empty array, and dispatching the pair
    from [testIntersections], in either order, returns it without
    throwing. *)
Theorem isect_ellipseline_no_coefficients (ellipse : Ellipse.t)
    (line : Line.t) :
  Ellipse.coeffs ellipse = [] ->
  isect_ellipseline ellipse line = []
  /\ dispatch (ShapeLine line) (ShapeEllipse ellipse) = Some []
  /\ dispatch (ShapeEllipse ellipse) (ShapeLine line) = Some [].
Proof.
  intros Hempty.
  assert (H : isect_ellipseline ellipse line = [])
    by (unfold isect_ellipseline; rewrite Hempty; reflexivity).
  split; [exact H|].
  split; run_dispatch; rewrite H; reflexivity.
Qed.

Lemma filter_all {A : Type} (f : A -> bool) (l : list A) :
  (forall v, f v = true) -> filter f l = l.
Proof.
  intros Hf. induction l as [|v l IH]; simpl; [reflexivity|].
  now rewrite Hf, IH.
Qed.

(** Between two full circles every solution is kept. *)
Lemma isect_carccarc_full (arc1 arc2 : CircularArc.t) :
  fullCircle arc1 -> fullCircle arc2 ->
  isect_carccarc arc1 arc2 = carccarc_solutions arc1 arc2.
Proof.
  intros H1 H2. unfold isect_carccarc. apply filter_all.
  intros s. unfold onArc. now rewrite H1, H2.
Qed.

(** C4 (amended). For two full circles, [isect_carccarc] compares the
    distance [d] of the centres, the sum of the radii and the absolute
    difference of the radii, each floored to six decimals.  It returns two
    points when [d] lies strictly between the difference and the sum;
    otherwise exactly one point when [d] is not zero and equals the sum or
    the difference (by [Util.equals]); and no point in every other case: in
    particular when [d] exceeds the sum or is below the difference without
    being equal to either, and when [d] is zero. *)
Theorem isect_carccarc_cases (arc1 arc2 : CircularArc.t) :
  fullCircle arc1 -> fullCircle arc2 ->
  let d := carccarc_d arc1 arc2 in
  let rsum := carccarc_rsum arc1 arc2 in
  let rdiff := carccarc_rdiff arc1 arc2 in
  let inside := (d <? rsum) && (d >? rdiff) in
  let touching := Util_equals rsum d None || Util_equals rdiff d None in
  (inside = true -> List.length (isect_carccarc arc1 arc2) = 2%nat)
  /\ (inside = false -> (d !=? 0) = true -> touching = true ->
      List.length (isect_carccarc arc1 arc2) = 1%nat)
  /\ (inside = false -> (d =? 0) = true -> isect_carccarc arc1 arc2 = [])
  /\ (touching = false -> (d >? rsum) = true ->
      isect_carccarc arc1 arc2 = [])
  /\ (touching = false -> (d <? rdiff) = true ->
      isect_carccarc arc1 arc2 = [])
  /\ (inside = false -> touching = false -> isect_carccarc arc1 arc2 = []).
Proof.
  intros H1 H2. rewrite (isect_carccarc_full arc1 arc2 H1 H2).
  unfold carccarc_solutions. cbv zeta.
  set (d := carccarc_d arc1 arc2).
  set (rsum := carccarc_rsum arc1 arc2).
  set (rdiff := carccarc_rdiff arc1 arc2).
  split; [intros ->; reflexivity|].
  split; [intros -> -> ->; reflexivity|].
  split; [intros -> Hz; unfold JS.neb; rewrite Hz; reflexivity|].
  split.
  { intros -> Hgt. unfold JS.gtb in Hgt.
    rewrite (FloatOrder.ltb_asym _ _ Hgt). simpl.
    now rewrite andb_false_r. }
  split.
  { intros -> Hlt. unfold JS.gtb at 1.
    rewrite (FloatOrder.ltb_asym _ _ Hlt), andb_false_r. simpl.
    now rewrite andb_false_r. }
  intros -> ->. now rewrite andb_false_r.
Qed.

(** C10. When the floored distance of the centres is zero, neither branch
    of [isect_carccarc] that divides by it is entered and the result is the
    empty array, also when that distance equals the floored difference of
    the radii.  [Util.floorToDecimal] is taken not to turn an absolute
    value into a negative number. *)
Theorem isect_carccarc_concentric
    (floor_of_abs :
       forall v : float, (Util_floorToDecimal (abs v) 6 <? 0) = false)
    (arc1 arc2 : CircularArc.t) :
  (carccarc_d arc1 arc2 =? 0) = true ->
  carccarc_solutions arc1 arc2 = [] /\ isect_carccarc arc1 arc2 = [].
Proof.
  intros Hzero.
  assert (Hs : carccarc_solutions arc1 arc2 = []).
  { unfold carccarc_solutions. cbv zeta. unfold JS.gtb, JS.neb.
    rewrite (FloatOrder.ltb_zero_r _ _ Hzero). unfold carccarc_rdiff.
    rewrite floor_of_abs, Hzero, andb_false_r. reflexivity. }
  split; [exact Hs|]. unfold isect_carccarc. now rewrite Hs.
Qed.

End SolverProperties.

(** ** Tangents through a point *)

Section TangentProperties.

Context {util : UtilOps}.


End TangentProperties.

(** ** Order of the two shapes *)

Section ShapeOrder.

Context {util : UtilOps} {coord : Coord2DOps} {math : MathOps}
        {hash : SpatialHashOps}.

(** For two shapes of different classes the points that [testIntersections]
    returns do not depend on which of the two is the query shape: the
    solver is looked up and called with the alphabetically smaller class
    first.  Two shapes of one class reach the solver in call order. *)
Lemma testIntersections_swap_points (this : SnapPoints) (a b : Shape)
    (action : Z) :
  shapeName a <> shapeName b ->
  option_map (fun r => snd (snd r))
    (testIntersections this a [Some b] action)
  = option_map (fun r => snd (snd r))
      (testIntersections this b [Some a] action).
Proof.
  intros Hne. rewrite !testIntersections_spec. simpl.
  now rewrite (pairIntersections_swap a b Hne).
Qed.

End ShapeOrder.

(** ** Facts about the helper implementations *)

Module SpecModelFacts.

Import SpecModel.

Lemma unsigned_round_aux (m e : Z) (l : location) :
  unsigned (binary_round_aux prec emax false m e l).
Proof.
  unfold binary_round_aux.
  destruct (shr_fexp prec emax m e l) as [mrs' e'].
  destruct (shr_fexp prec emax _ e' loc_Exact) as [mrs'' e''].
  destruct (shr_m mrs''); simpl; try destruct (Z.leb _ _); simpl; auto.
Qed.

Lemma unsigned_mul (s : spec_float) (m : positive) (e : Z) :
  unsigned s -> unsigned (SF64mul s (S754_finite false m e)).
Proof.
  destruct s as [b|b| |b ms es]; simpl; intros H; subst; simpl; auto.
  apply unsigned_round_aux.
Qed.

Lemma unsigned_div (s : spec_float) (m : positive) (e : Z) :
  unsigned s -> unsigned (SF64div s (S754_finite false m e)).
Proof.
  destruct s as [b|b| |b ms es]; simpl; intros H; subst; simpl; auto.
  destruct (SFdiv_core_binary prec emax (Z.pos ms) es (Z.pos m) e)
    as [[mz ez] lz].
  apply unsigned_round_aux.
Qed.

Lemma unsigned_abs (v : float) : unsigned (Prim2SF (abs v)).
Proof. rewrite abs_spec. destruct (Prim2SF v); simpl; auto. Qed.

Lemma unsigned_ofZ (z : Z) : (0 <= z)%Z -> unsigned (Prim2SF (ofZ z)).
Proof.
  intros Hz. unfold ofZ.
  destruct (z <? 0)%Z eqn:E; [apply Z.ltb_lt in E; lia|].
  rewrite of_uint63_spec.
  pose proof (Uint63.to_Z_bounded (Uint63.of_Z z)) as Hb.
  destruct (Uint63.to_Z (Uint63.of_Z z)) as [|p|p]; simpl; auto; [|lia].
  unfold binary_round.
  destruct (shl_align _ _ _) as [mz ez]. apply unsigned_round_aux.
Qed.

Lemma unsigned_floor (v : float) :
  unsigned (Prim2SF v) -> unsigned (Prim2SF (Math_floor v)).
Proof.
  intros H. unfold Math_floor.
  destruct (Prim2SF v) as [b|b| |b m e] eqn:E; try (rewrite E; exact H).
  destruct (0 <=? e)%Z; [rewrite E; exact H|].
  apply unsigned_ofZ. unfold floorZ. rewrite E. simpl in H. subst b.
  destruct (0 <=? e)%Z.
  - apply Z.shiftl_nonneg. lia.
  - apply Z.shiftr_nonneg. lia.
Qed.

Lemma unsigned_not_negative (s : spec_float) :
  unsigned s -> SFltb s (S754_zero false) = false.
Proof. destruct s as [b|b| |b m e]; simpl; intros H; subst; reflexivity. Qed.

(** Flooring an absolute value to six decimals does not give a negative
    number. *)
Lemma floorToDecimal_abs_not_negative (v : float) :
  (floorToDecimal (abs v) 6 <? 0) = false.
Proof.
  unfold floorToDecimal.
  change (pow10 (Z.to_nat 6)) with 1000000.
  assert (Hm : exists m e, Prim2SF 1000000 = S754_finite false m e)
    by (vm_compute; eauto).
  destruct Hm as (m & e & Hm).
  rewrite FloatAxioms.ltb_spec, div_spec, Hm.
  change (Prim2SF 0) with (S754_zero false).
  apply unsigned_not_negative, unsigned_div, unsigned_floor.
  rewrite mul_spec, Hm. apply unsigned_mul, unsigned_abs.
Qed.

(** Removing an empty batch leaves the spatial hash as it is. *)
Lemma remove_nothing (h : Hash) : remove h [] = h.
Proof. reflexivity. Qed.

(** A sweep of one full turn accepts every angle. *)
Lemma fullArc_fullCircle (center : Coord2D) (radius : float) :
  @fullCircle util (Inputs.fullArc center radius).
Proof. intros a. vm_compute. reflexivity. Qed.

End SpecModelFacts.

(** ** Concrete scenarios, evaluated on [SpecModel] *)

Module Scenarios.

Import SpecModel Inputs SpecModelFacts.

#[local] Existing Instances math util coord hash.

(** Line A from (0,0) to (10,0) and line B from (5,-5) to (5,5) meet at
    (5,0). *)
Example lineline_crossing :
  isect_lineline (Line.fromPoints (mkCoord2D 0 0) (mkCoord2D 10 0))
                 (Line.fromPoints (mkCoord2D 5 (-5)) (mkCoord2D 5 5))
  = [mkCoord2D 5 0].
Proof. vm_compute. reflexivity. Qed.

(** The circle of radius 5 around (0,0) and the line from (-10,0) to (10,0)
    meet at (5,0) and (-5,0). *)
Example circleline_secant :
  isect_circleline (Circle.mk (mkCoord2D 0 0) 5)
                   (Line.fromPoints (mkCoord2D (-10) 0) (mkCoord2D 10 0))
  = [mkCoord2D 5 0; mkCoord2D (-5) 0].
Proof. vm_compute. reflexivity. Qed.

(** A tangent line gives one point, a line outside the circle none. *)
Example circleline_tangent_and_outside :
  isect_circleline (Circle.mk (mkCoord2D 0 0) 5)
                   (Line.fromPoints (mkCoord2D (-10) 5) (mkCoord2D 10 5))
  = [mkCoord2D 0 5]
  /\ isect_circleline (Circle.mk (mkCoord2D 0 0) 5)
                      (Line.fromPoints (mkCoord2D (-10) 6) (mkCoord2D 10 6))
     = [].
Proof. vm_compute. split; reflexivity. Qed.

(** Two full circles of radius 6 around (0,0) and (10,0) meet at the two
    points of abscissa 5 and ordinates the square roots of 11. *)
Example carccarc_two_points :
  isect_carccarc (CircularArc.mk (mkCoord2D 0 0) 6 0 twoPi)
                 (CircularArc.mk (mkCoord2D 10 0) 6 0 twoPi)
  = [mkCoord2D 5 (-3.3166247903553998); mkCoord2D 5 3.3166247903553998].
Proof. vm_compute. reflexivity. Qed.

(** From (0,2) the tangents to the unit circle touch it at
    (sqrt 3 / 2, 1/2) and (-sqrt 3 / 2, 1/2); from (2,0), where the linear
    coefficient [Q] is zero, the quotients are not numbers and nothing is
    returned, although two tangents exist. *)
Example getTangentsThrough_unit_circle :
  let circle := Ellipse.mk (mkCoord2D 0 0) 1 1 0 [1; 0; 1; 0; 0; -1] in
  getTangentsThrough circle (mkCoord2D 0 2)
  = [mkCoord2D 0.8660254037844386 0.5; mkCoord2D (-0.8660254037844386) 0.5]
  /\ tangentsQ circle (mkCoord2D 2 0) = 0
  /\ getTangentsThrough circle (mkCoord2D 2 0) = [].
Proof. vm_compute. repeat split; reflexivity. Qed.

(** C3, at the two circles that touch from inside at (4,0).  With the outer
    circle first [testIntersections] finds the point of tangency, which is
    at the distance of the radius from either centre; with the inner circle
    first it finds (0,0), the point of the inner circle opposite to the
    point of tangency, which is the centre of the outer circle and not a
    point of it. *)
Theorem testIntersections_inner_tangency_order :
  option_map snd
    (testIntersections emptyManager (ShapeCarc outerCircle)
       [Some (ShapeCarc innerCircle)] nopFlag)
  = Some ([ShapeCarc innerCircle], [mkCoord2D 4 0])
  /\ option_map snd
       (testIntersections emptyManager (ShapeCarc innerCircle)
          [Some (ShapeCarc outerCircle)] nopFlag)
     = Some ([ShapeCarc outerCircle], [mkCoord2D 0 0])
  /\ distanceTo (CircularArc.center outerCircle) (mkCoord2D 4 0)
     = CircularArc.radius outerCircle
  /\ distanceTo (CircularArc.center innerCircle) (mkCoord2D 4 0)
     = CircularArc.radius innerCircle
  /\ distanceTo (CircularArc.center outerCircle) (mkCoord2D 0 0) = 0
  /\ CircularArc.radius outerCircle = 4.
Proof. vm_compute. repeat split; reflexivity. Qed.


(** C4, as stated, fails: for two coincident full circles the floored
    distance of the centres equals the floored difference of the radii
    (both are 0, and [Util.equals] holds of them), and no point is
    returned. *)
Lemma isect_carccarc_coincident :
  fullCircle leftCircle
  /\ carccarc_d leftCircle leftCircle = 0
  /\ carccarc_rdiff leftCircle leftCircle = 0
  /\ Util_equals (carccarc_rdiff leftCircle leftCircle)
       (carccarc_d leftCircle leftCircle) None = true
  /\ isect_carccarc leftCircle leftCircle = [].
Proof.
  split; [apply fullArc_fullCircle|]. vm_compute. repeat split; reflexivity.
Qed.

(** Two full circles whose centres are at a distance equal to the sum of
    the radii meet in exactly one point. *)
Lemma isect_carccarc_cases_witness :
  fullCircle leftCircle /\ fullCircle rightCircle
  /\ List.length (isect_carccarc leftCircle rightCircle) = 1%nat.
Proof.
  split; [apply fullArc_fullCircle|]. split; [apply fullArc_fullCircle|].
  apply (proj1 (proj2 (isect_carccarc_cases leftCircle rightCircle
                         (fullArc_fullCircle _ _) (fullArc_fullCircle _ _))));
    vm_compute; reflexivity.
Defined.

(** An ellipse without conic coefficients against a diagonal segment. *)
Lemma isect_ellipseline_no_coefficients_witness :
  Ellipse.coeffs plainEllipse = []
  /\ isect_ellipseline plainEllipse diagonal = []
  /\ dispatch (ShapeLine diagonal) (ShapeEllipse plainEllipse) = Some []
  /\ dispatch (ShapeEllipse plainEllipse) (ShapeLine diagonal) = Some [].
Proof.
  split; [reflexivity|].
  apply (isect_ellipseline_no_coefficients plainEllipse diagonal).
  reflexivity.
Defined.

(** A manager with one point pending deletion, flushed twice. *)
Lemma flush_twice_witness :
  (forall h : Hash, remove h [] = h)
  /\ points (flush pendingManager)
     = remove (points pendingManager) (deletedPoints pendingManager)
  /\ deletedPoints (flush pendingManager) = []
  /\ flush (flush pendingManager) = flush pendingManager.
Proof.
  split; [exact remove_nothing|].
  apply (@flush_twice hash remove_nothing pendingManager).
Defined.

(** Coincident circles: the distance is zero and equals the difference of
    the radii. *)
Lemma isect_carccarc_concentric_witness :
  (forall v : float, (floorToDecimal (abs v) 6 <? 0) = false)
  /\ (carccarc_d leftCircle leftCircle =? 0) = true
  /\ carccarc_solutions leftCircle leftCircle = []
  /\ isect_carccarc leftCircle leftCircle = [].
Proof.
  split; [exact floorToDecimal_abs_not_negative|].
  split; [vm_compute; reflexivity|].
  apply (@isect_carccarc_concentric util coord
           floorToDecimal_abs_not_negative leftCircle leftCircle).
  vm_compute; reflexivity.
Defined.

End Scenarios.


(** * Further properties *)

(** ** More on the order of JavaScript numbers *)

Module FloatOrderMore.

Lemma SFleb_ltb_trans (u v w : spec_float) :
  SFleb u v = true -> SFltb v w = true -> SFltb u w = true.
Proof.
  unfold SFleb, SFltb, SFcompare.
  destruct u as [su|su| |su mu eu], v as [sv|sv| |sv mv ev],
           w as [sw|sw| |sw mw ew];
    try destruct su; try destruct sv; try destruct sw; simpl;
    try discriminate; try reflexivity; FloatOrder.sf_cases.
Qed.

(** [a <= b] and [b < c] give [a < c]. *)
Lemma leb_ltb_trans (a b c : float) :
  (a <=? b) = true -> (b <? c) = true -> (a <? c) = true.
Proof.
  rewrite FloatAxioms.leb_spec, !FloatAxioms.ltb_spec.
  apply SFleb_ltb_trans.
Qed.

End FloatOrderMore.

(** ** Composition of the manager's operations *)

Section FurtherManager.

Context {util : UtilOps} {coord : Coord2DOps} {math : MathOps}
        {hash : SpatialHashOps}.

Variable Alberti_snapRadius : float.

Lemma queryPoints_app (newShape : Shape) (l1 l2 : list (option Shape)) :
  queryPoints newShape (l1 ++ l2)
  = queryPoints newShape l1 ++ queryPoints newShape l2.
Proof. apply flat_map_app. Qed.

Lemma queryShapes_app (newShape : Shape) (l1 l2 : list (option Shape)) :
  queryShapes newShape (l1 ++ l2)
  = queryShapes newShape l1 ++ queryShapes newShape l2.
Proof. apply flat_map_app. Qed.

(** X1. Testing a shape against the concatenation of two candidate lists is
    testing it against the first list and then, from the manager that this
    leaves, against the second: the final manager is the same and the
    returned shapes and points are the concatenations of the two results. *)
Theorem testIntersections_app (this : SnapPoints) (newShape : Shape)
    (shapes1 shapes2 : list (option Shape)) (action : Z) :
  testIntersections this newShape (shapes1 ++ shapes2) action
  = thenTestIntersections (testIntersections this newShape shapes1 action)
      newShape shapes2 action.
Proof.
  unfold thenTestIntersections. rewrite !testIntersections_spec.
  now rewrite takeAction_app, queryPoints_app, queryShapes_app.
Qed.


Lemma queryShapes_nil_iff (newShape : Shape)
    (shapeArray : list (option Shape)) :
  queryShapes newShape shapeArray = []
  <-> queryPoints newShape shapeArray = [].
Proof.
  induction shapeArray as [|[shape|] rest IH]; simpl; [tauto| |exact IH].
  destruct (pairIntersections newShape shape) as [|p l]; simpl;
    [exact IH|].
  split; discriminate.
Qed.

Lemma queryShapes_In (newShape : Shape) (shapeArray : list (option Shape))
    (s : Shape) :
  In s (queryShapes newShape shapeArray)
  <-> In (Some s) shapeArray /\ pairIntersections newShape s <> [].
Proof.
  induction shapeArray as [|[shape|] rest IH]; simpl.
  - tauto.
  - rewrite in_app_iff, IH.
    destruct (pairIntersections newShape shape) as [|p l] eqn:E; simpl.
    + split.
      * intros [[]|[Hin Hne]]. split; [now right | exact Hne].
      * intros [[Heq|Hin] Hne]; [|now right].
        injection Heq as ->. now rewrite E in Hne.
    + split.
      * intros [[->|[]]|[Hin Hne]].
        -- split; [now left | rewrite E; discriminate].
        -- split; [now right | exact Hne].
      * intros [[Heq|Hin] Hne].
        -- injection Heq as ->. left. now left.
        -- right. now split.
  - rewrite IH. split.
    + intros [Hin Hne]. split; [now right | exact Hne].
    + intros [[Heq|Hin] Hne]; [discriminate | now split].
Qed.

Lemma queryPoints_In (newShape : Shape) (shapeArray : list (option Shape))
    (p : Coord2D) :
  In p (queryPoints newShape shapeArray)
  <-> exists s, In (Some s) shapeArray /\ In p (pairIntersections newShape s).
Proof.
  unfold queryPoints. rewrite in_flat_map. split.
  - intros [[s|] [Hin Hp]]; [|destruct Hp]. now exists s.
  - intros [s [Hin Hp]]. now exists (Some s).
Qed.

Lemma queryShapes_length (newShape : Shape)
    (shapeArray : list (option Shape)) :
  (List.length (queryShapes newShape shapeArray)
   <= List.length shapeArray)%nat.
Proof.
  induction shapeArray as [|[shape|] rest IH]; simpl; [lia| |lia].
  rewrite length_app.
  destruct (0 <? List.length (pairIntersections newShape shape))%nat;
    simpl; lia.
Qed.

(** X3. The two arrays that [testIntersections] returns agree with each
    other and with the candidate list: a shape is returned exactly if it
    is a candidate with at least one intersection, a point is returned
    exactly if it is an intersection with one of the candidates, so no
    shape is returned without a point nor a point without a shape, and
    there are at most as many shapes as candidates. *)
Theorem testIntersections_result_consistent (this : SnapPoints)
    (newShape : Shape) (shapeArray : list (option Shape)) (action : Z) :
  exists (this' : SnapPoints) (shapes : list Shape) (pts : list Coord2D),
    testIntersections this newShape shapeArray action
    = Some (this', (shapes, pts))
    /\ (shapes = [] <-> pts = [])
    /\ (forall s : Shape,
          In s shapes
          <-> In (Some s) shapeArray /\ pairIntersections newShape s <> [])
    /\ (forall p : Coord2D,
          In p pts
          <-> exists s : Shape,
                In s shapes /\ In p (pairIntersections newShape s))
    /\ (List.length shapes <= List.length shapeArray)%nat.
Proof.
  eexists _, _, _. split; [apply testIntersections_spec|].
  split; [apply queryShapes_nil_iff|].
  split; [apply queryShapes_In|].
  split; [|apply queryShapes_length].
  intros p. rewrite queryPoints_In. split.
  - intros [s [Hin Hp]]. exists s. split; [|exact Hp].
    apply queryShapes_In. split; [exact Hin|].
    intros Hnil. rewrite Hnil in Hp. destruct Hp.
  - intros [s [Hin Hp]]. exists s. split; [|exact Hp].
    now apply queryShapes_In in Hin.
Qed.

(** X4. Points that are marked for deletion stay snap targets until the
    flush: after [testIntersections] with the bulk-delete flag every
    nearest-neighbour query answers as before it, and the flush that
    follows removes from the index what was pending before together with
    the points just marked. *)
Theorem bulkDelete_defers_removal (this : SnapPoints) (newShape : Shape)
    (shapeArray : list (option Shape)) :
  exists (this' : SnapPoints) (shapes : list Shape) (pts : list Coord2D),
    testIntersections this newShape shapeArray bulkDeleteFlag
    = Some (this', (shapes, pts))
    /\ (forall (q : Coord2D) (e : option Coord2D),
          getNearestNeighbor Alberti_snapRadius this' q e
          = getNearestNeighbor Alberti_snapRadius this q e)
    /\ points (flush this')
       = SH_remove (points this) (deletedPoints this ++ pts)
    /\ deletedPoints (flush this') = [].
Proof.
  eexists _, _, _. split; [apply testIntersections_spec|].
  split; [reflexivity|]. split; [|reflexivity].
  simpl. now rewrite push_each.
Qed.

(** X5. The radius scale and the index do not touch each other:
    [testIntersections] and [flush] leave the scale as it is, and setting
    the scale before or after either of them gives the same manager. *)
Theorem setSnapRadiusScale_commutes (this : SnapPoints) (scale : float)
    (newShape : Shape) (shapeArray : list (option Shape)) (action : Z) :
  testIntersections (setSnapRadiusScale this scale) newShape shapeArray
    action
  = option_map (fun r => (setSnapRadiusScale (fst r) scale, snd r))
      (testIntersections this newShape shapeArray action)
  /\ flush (setSnapRadiusScale this scale)
     = setSnapRadiusScale (flush this) scale
  /\ snapRadiusScale (flush this) = snapRadiusScale this
  /\ option_map (fun r => snapRadiusScale (fst r))
       (testIntersections this newShape shapeArray action)
     = Some (snapRadiusScale this).
Proof.
  rewrite !testIntersections_spec. simpl.
  split; [|split; [reflexivity|split; [reflexivity|]]].
  - f_equal. f_equal. unfold takeAction, setSnapRadiusScale.
    repeat match goal with
           | |- context [(?a =? ?b)%Z] => destruct (a =? b)%Z
           end; reflexivity.
  - f_equal. unfold takeAction.
    repeat match goal with
           | |- context [(?a =? ?b)%Z] => destruct (a =? b)%Z
           end; reflexivity.
Qed.

End FurtherManager.

(** ** More on [getNearestNeighbor] *)

Section FurtherNearest.

Context {coord : Coord2DOps} {hash : SpatialHashOps}.

Variable Alberti_snapRadius : float.

Lemma firstClosest_step (q : Coord2D) (seen : list Coord2D)
    (acc : option Coord2D * float) (nc : Coord2D) :
  nearestInvariant q seen acc ->
  firstClosest q seen (fst acc) ->
  firstClosest q (seen ++ [nc]) (fst (nearestStep q None acc nc)).
Proof.
  intros [Hbest Hmin] Hfirst. unfold nearestStep. simpl.
  destruct (distanceTo q nc <? snd acc) eqn:Hlt; simpl.
  - exists seen, []. split; [reflexivity|].
    intros c' Hin.
    destruct (distanceTo q c' <=? distanceTo q nc) eqn:Hle; [|reflexivity].
    specialize (Hmin c' Hin).
    rewrite (FloatOrderMore.leb_ltb_trans _ _ _ Hle Hlt) in Hmin.
    discriminate.
  - destruct (fst acc) as [c|]; [|exact I].
    destruct Hfirst as (l1 & l2 & -> & Hl1).
    exists l1, (l2 ++ [nc]). split; [|exact Hl1].
    now rewrite <- app_assoc.
Qed.

Lemma firstClosest_fold (q : Coord2D) (l : list Coord2D) :
  forall (seen : list Coord2D) (acc : option Coord2D * float),
    nearestInvariant q seen acc ->
    firstClosest q seen (fst acc) ->
    firstClosest q (seen ++ l)
      (fst (fold_left (nearestStep q None) l acc)).
Proof.
  induction l as [|nc l IH]; intros seen acc Hinv Hfirst; simpl.
  - now rewrite app_nil_r.
  - replace (seen ++ nc :: l) with ((seen ++ [nc]) ++ l)
      by (rewrite <- app_assoc; reflexivity).
    apply IH.
    + now apply nearestInvariant_step.
    + now apply firstClosest_step.
Qed.

Lemma closest_first (q : Coord2D) (l : list Coord2D) :
  firstClosest q l (closest q l).
Proof.
  apply (firstClosest_fold q l [] (None, infinity)).
  - split; [reflexivity | intros c' []].
  - exact I.
Qed.

(** X6. A point that [getNearestNeighbor] returns is one that the index
    returned for the query, and it is not equal ([isEqual]) to the exclude
    coordinate. *)
Theorem getNearestNeighbor_from_index (this : SnapPoints) (q : Coord2D)
    (e : option Coord2D) (c : Coord2D) :
  getNearestNeighbor Alberti_snapRadius this q e = Some c ->
  In c (SH_search (points this) q
          (Alberti_snapRadius / snapRadiusScale this))
  /\ excluded e c = false.
Proof.
  intros Hc. rewrite getNearestNeighbor_closest in Hc.
  apply closest_some in Hc. destruct Hc as [Hin _].
  unfold candidates, nearCoords in Hin. apply filter_In in Hin.
  destruct Hin as [Hin Hex]. split; [exact Hin|].
  now destruct (excluded e c).
Qed.

(** X7. Among candidates at the same smallest distance the first in the
    order of the index wins: every remaining candidate that comes before
    the returned point is not at a distance less than or equal to its
    distance, and none that comes after it is strictly closer. *)
Theorem getNearestNeighbor_first_wins (this : SnapPoints) (q : Coord2D)
    (e : option Coord2D) (c : Coord2D) :
  getNearestNeighbor Alberti_snapRadius this q e = Some c ->
  exists before after : list Coord2D,
    filter (fun nc => negb (excluded e nc))
      (SH_search (points this) q
         (Alberti_snapRadius / snapRadiusScale this))
    = before ++ c :: after
    /\ (forall c' : Coord2D,
          In c' before -> (distanceTo q c' <=? distanceTo q c) = false)
    /\ (forall c' : Coord2D,
          In c' after -> (distanceTo q c' <? distanceTo q c) = false).
Proof.
  intros Hc. rewrite getNearestNeighbor_closest in Hc.
  pose proof (closest_first q (candidates Alberti_snapRadius this q e))
    as Hfirst.
  rewrite Hc in Hfirst. destruct Hfirst as (l1 & l2 & Heq & Hl1).
  exists l1, l2. split; [exact Heq|]. split; [exact Hl1|].
  intros c' Hin. apply closest_some in Hc. destruct Hc as [_ Hmin].
  apply Hmin. rewrite Heq. apply in_or_app. right. now right.
Qed.

End FurtherNearest.

(** ** More on the solvers *)

Section FurtherSolvers.

Context {util : UtilOps} {coord : Coord2DOps} {math : MathOps}.

Lemma filter_length_le {A : Type} (f : A -> bool) (l : list A) :
  (List.length (filter f l) <= List.length l)%nat.
Proof.
  induction l as [|v l IH]; simpl; [lia|]. destruct (f v); simpl; lia.
Qed.

(** What one root contributes: its point if it lies in [0, 1]. *)
Lemma In_root (line : Line.t) (t : float) (p : Coord2D) :
  In p (if inUnitInterval t then [lineAt line t] else []) ->
  inUnitInterval t = true /\ p = lineAt line t.
Proof.
  destruct (inUnitInterval t); simpl; [|intros []].
  intros [<-|[]]. now split.
Qed.

Lemma In_roots (line : Line.t) (t1 t2 : float) (p : Coord2D) :
  In p ((if inUnitInterval t1 then [lineAt line t1] else [])
        ++ (if inUnitInterval t2 then [lineAt line t2] else [])) ->
  exists t, inUnitInterval t = true /\ p = lineAt line t.
Proof.
  intros Hin. apply in_app_or in Hin.
  destruct Hin as [Hin|Hin]; apply In_root in Hin; eauto.
Qed.

Lemma isect_circleline_on_segment (circle : Circle.t) (line : Line.t)
    (p : Coord2D) :
  In p (isect_circleline circle line) ->
  exists t, inUnitInterval t = true /\ p = lineAt line t.
Proof.
  unfold isect_circleline.
  destruct (circleline_abc circle line) as [[a b] c].
  destruct (Util_equals _ _ _).
  - intros Hin. apply In_root in Hin. eauto.
  - destruct (_ >? 0); [apply In_roots | intros []].
Qed.

Lemma isect_circleline_length (circle : Circle.t) (line : Line.t) :
  (List.length (isect_circleline circle line) <= 2)%nat.
Proof.
  unfold isect_circleline.
  destruct (circleline_abc circle line) as [[a b] c].
  destruct (Util_equals _ _ _).
  - destruct (inUnitInterval _); simpl; lia.
  - destruct (_ >? 0); [|simpl; lia].
    do 2 destruct (inUnitInterval _); simpl; lia.
Qed.

Lemma isect_carcline_length (arc : CircularArc.t) (line : Line.t) :
  (List.length (isect_carcline arc line) <= 2)%nat.
Proof.
  unfold isect_carcline.
  pose proof (filter_length_le
                (onArc (CircularArc.center arc) (CircularArc.sa arc)
                   (CircularArc.da arc))
                (isect_circleline (carcCircle arc) line)).
  pose proof (isect_circleline_length (carcCircle arc) line). lia.
Qed.

Lemma isect_ellipseline_on_segment (ellipse : Ellipse.t) (line : Line.t)
    (p : Coord2D) :
  In p (isect_ellipseline ellipse line) ->
  exists t, inUnitInterval t = true /\ p = lineAt line t.
Proof.
  unfold isect_ellipseline.
  destruct (0 <? List.length (Ellipse.coeffs ellipse))%nat; [|intros []].
  cbv zeta. destruct (Util_equals _ _ _).
  - intros Hin. apply In_root in Hin. eauto.
  - destruct (_ >? 0); [apply In_roots | intros []].
Qed.

Lemma isect_ellipseline_length (ellipse : Ellipse.t) (line : Line.t) :
  (List.length (isect_ellipseline ellipse line) <= 2)%nat.
Proof.
  unfold isect_ellipseline.
  destruct (0 <? List.length (Ellipse.coeffs ellipse))%nat; [|simpl; lia].
  cbv zeta. destruct (Util_equals _ _ _).
  - destruct (inUnitInterval _); simpl; lia.
  - destruct (_ >? 0); [|simpl; lia].
    do 2 destruct (inUnitInterval _); simpl; lia.
Qed.

Lemma isect_earcline_length (arc : EllipticalArc.t) (line : Line.t) :
  (List.length (isect_earcline arc line) <= 2)%nat.
Proof.
  unfold isect_earcline.
  pose proof (filter_length_le
                (onArc (EllipticalArc.center arc) (EllipticalArc.sa arc)
                   (EllipticalArc.da arc))
                (isect_ellipseline (earcEllipse arc) line)).
  pose proof (isect_ellipseline_length (earcEllipse arc) line). lia.
Qed.

(** X8. Every point that the ellipse-line solver returns, and every point
    that the circle-line solver returns, is the point of the segment at a
    parameter [t] with [0 <= t <= 1]; the ellipse-line solver returns at
    most two points. *)
Theorem line_solvers_on_segment (line : Line.t) :
  (forall (ellipse : Ellipse.t) (p : Coord2D),
      In p (isect_ellipseline ellipse line) ->
      exists t, inUnitInterval t = true /\ p = lineAt line t)
  /\ (forall ellipse : Ellipse.t,
        (List.length (isect_ellipseline ellipse line) <= 2)%nat)
  /\ (forall (circle : Circle.t) (p : Coord2D),
        In p (isect_circleline circle line) ->
        exists t, inUnitInterval t = true /\ p = lineAt line t).
Proof.
  split; [intros e p; apply isect_ellipseline_on_segment|].
  split; [intros e; apply isect_ellipseline_length|].
  intros c p. apply isect_circleline_on_segment.
Qed.


Lemma isect_lineline_length (l1 l2 : Line.t) :
  (List.length (isect_lineline l1 l2) <= 1)%nat.
Proof.
  unfold isect_lineline. cbv zeta.
  destruct (negb _); [|simpl; lia].
  match goal with |- context [if ?c then _ else _] => destruct c end;
    simpl; lia.
Qed.

(** X10. The line-line solver returns at most one point; it returns none
    when the determinant of the two lines equals 0 ([Util.equals], the
    lines are parallel), and a point that it returns passes
    [Util.between] for both coordinates on both segments. *)
Theorem isect_lineline_cases (l1 l2 : Line.t) :
  let det := (y (Line.p2 l1) - y (Line.p1 l1))
             * (x (Line.p1 l2) - x (Line.p2 l2))
             - (y (Line.p2 l2) - y (Line.p1 l2))
               * (x (Line.p1 l1) - x (Line.p2 l1)) in
  (List.length (isect_lineline l1 l2) <= 1)%nat
  /\ (Util_equals det 0 None = true -> isect_lineline l1 l2 = [])
  /\ (forall p : Coord2D,
        In p (isect_lineline l1 l2) ->
        Util_equals det 0 None = false
        /\ Util_between (x p) (x (Line.p1 l1)) (x (Line.p2 l1)) = true
        /\ Util_between (y p) (y (Line.p1 l1)) (y (Line.p2 l1)) = true
        /\ Util_between (x p) (x (Line.p1 l2)) (x (Line.p2 l2)) = true
        /\ Util_between (y p) (y (Line.p1 l2)) (y (Line.p2 l2)) = true).
Proof.
  intros det. split; [apply isect_lineline_length|].
  unfold isect_lineline. cbv zeta. fold det.
  destruct (Util_equals det 0 None); simpl.
  - split; [reflexivity | intros p []].
  - split; [discriminate|]. intros p.
    match goal with |- context [if ?c then _ else _] =>
      destruct c eqn:Hc end; [|intros []].
    intros [<-|[]]. simpl.
    apply andb_prop in Hc. destruct Hc as [Hc H4].
    apply andb_prop in Hc. destruct Hc as [Hc H3].
    apply andb_prop in Hc. destruct Hc as [H1 H2].
    repeat split; assumption.
Qed.

Lemma isect_bezierline_length (bezier : Bezier.t) (line : Line.t) :
  (List.length (isect_bezierline bezier line) <= 2)%nat.
Proof.
  unfold isect_bezierline. cbv zeta.
  match goal with |- (List.length (filter ?f ?l) <= 2)%nat =>
    pose proof (filter_length_le f l) as Hf;
    assert (Hl : (List.length l <= 2)%nat); [|lia]
  end.
  destruct (Util_equals _ _ _).
  - destruct (inUnitInterval _); simpl; lia.
  - destruct (_ >? 0); [|simpl; lia].
    do 2 destruct (inUnitInterval _); simpl; lia.
Qed.

(** X11. The bezier-line solver returns at most two points; each is the
    point of the curve at a parameter [t] with [0 <= t <= 1] and passes
    [Util.between] for both coordinates on the segment. *)
Theorem isect_bezierline_points (bezier : Bezier.t) (line : Line.t) :
  (List.length (isect_bezierline bezier line) <= 2)%nat
  /\ forall p : Coord2D,
       In p (isect_bezierline bezier line) ->
       (exists t, inUnitInterval t = true /\ p = bezierAt bezier t)
       /\ Util_between (x p) (x (Line.p1 line)) (x (Line.p2 line)) = true
       /\ Util_between (y p) (y (Line.p1 line)) (y (Line.p2 line)) = true.
Proof.
  split; [apply isect_bezierline_length|].
  intros p. unfold isect_bezierline. cbv zeta. rewrite filter_In.
  intros [Hin Hb]. apply andb_prop in Hb. destruct Hb as [Hx Hy].
  split; [|now split].
  destruct (Util_equals _ _ _).
  - destruct (inUnitInterval _) eqn:Ht; [|destruct Hin].
    destruct Hin as [<-|[]]. eauto.
  - destruct (_ >? 0); [|destruct Hin].
    apply in_app_or in Hin.
    destruct Hin as [Hin|Hin];
      match type of Hin with
      | In _ (if inUnitInterval ?t then _ else _) =>
          destruct (inUnitInterval t) eqn:Ht; [|destruct Hin];
          destruct Hin as [<-|[]]; eauto
      end.
Qed.

Lemma carccarc_solutions_length (arc1 arc2 : CircularArc.t) :
  (List.length (carccarc_solutions arc1 arc2) <= 2)%nat.
Proof.
  unfold carccarc_solutions. cbv zeta.
  destruct (_ && _); [simpl; lia|]. destruct (_ && _); simpl; lia.
Qed.

(** X12. For any two arcs, the arc-arc solver returns at most two points,
    at most one when the floored distance of the centres does not lie
    strictly between the floored difference and sum of the radii, and every
    point that it returns passes the angular test of both arcs. *)
Theorem isect_carccarc_points (arc1 arc2 : CircularArc.t) :
  (List.length (isect_carccarc arc1 arc2) <= 2)%nat
  /\ ((carccarc_d arc1 arc2 <? carccarc_rsum arc1 arc2)
      && (carccarc_d arc1 arc2 >? carccarc_rdiff arc1 arc2) = false ->
      (List.length (isect_carccarc arc1 arc2) <= 1)%nat)
  /\ forall p : Coord2D,
       In p (isect_carccarc arc1 arc2) ->
       onArc (CircularArc.center arc1) (CircularArc.sa arc1)
         (CircularArc.da arc1) p = true
       /\ onArc (CircularArc.center arc2) (CircularArc.sa arc2)
            (CircularArc.da arc2) p = true.
Proof.
  unfold isect_carccarc.
  match goal with |- context [filter ?f ?l] =>
    pose proof (filter_length_le f l) as Hf
  end.
  split; [pose proof (carccarc_solutions_length arc1 arc2); lia|].
  split.
  - intros Hout.
    assert (Hl : (List.length (carccarc_solutions arc1 arc2) <= 1)%nat);
      [|lia].
    unfold carccarc_solutions. cbv zeta. rewrite Hout.
    match goal with |- context [if ?c then _ else _] => destruct c end;
      simpl; lia.
  - intros p Hin. apply filter_In in Hin. destruct Hin as [_ Hb].
    now apply andb_prop in Hb.
Qed.

Lemma rect_solver_spec {A : Type} (f : A -> Line.t -> list Coord2D)
    (k : nat) (a : A) (rect : Rect.t) :
  (forall l, (List.length (f a l) <= k)%nat) ->
  (List.length (concat (map (f a) (rectSides rect))) <= 4 * k)%nat
  /\ forall p : Coord2D,
       In p (concat (map (f a) (rectSides rect)))
       <-> exists side, In side (rectSides rect) /\ In p (f a side).
Proof.
  intros Hk. split.
  - unfold rectSides. simpl. rewrite !length_app. simpl.
    repeat match goal with
           | |- context [List.length (f a ?l)] =>
               let H := fresh in
               pose proof (Hk l) as H; generalize dependent (f a l); intros
           end.
    lia.
  - intros p. rewrite in_concat. split.
    + intros [pts [Hin Hp]]. apply in_map_iff in Hin.
      destruct Hin as [side [<- Hside]]. now exists side.
    + intros [side [Hside Hp]]. exists (f a side). split; [|exact Hp].
      apply in_map_iff. now exists side.
Qed.

(** X13. A solver against a rectangle returns exactly the points that the
    corresponding solver against a segment returns for one of the four
    sides of the rectangle: at most four points for a line, at most eight
    for any other shape. *)
Theorem rect_solvers (rect : Rect.t) :
  (forall line : Line.t,
      (List.length (isect_linerect line rect) <= 4)%nat
      /\ forall p, In p (isect_linerect line rect)
           <-> exists side, In side (rectSides rect)
                            /\ In p (isect_lineline line side))
  /\ (forall circle : Circle.t,
        (List.length (isect_circlerect circle rect) <= 8)%nat
        /\ forall p, In p (isect_circlerect circle rect)
             <-> exists side, In side (rectSides rect)
                              /\ In p (isect_circleline circle side))
  /\ (forall carc : CircularArc.t,
        (List.length (isect_carcrect carc rect) <= 8)%nat
        /\ forall p, In p (isect_carcrect carc rect)
             <-> exists side, In side (rectSides rect)
                              /\ In p (isect_carcline carc side))
  /\ (forall ellipse : Ellipse.t,
        (List.length (isect_ellipserect ellipse rect) <= 8)%nat
        /\ forall p, In p (isect_ellipserect ellipse rect)
             <-> exists side, In side (rectSides rect)
                              /\ In p (isect_ellipseline ellipse side))
  /\ (forall earc : EllipticalArc.t,
        (List.length (isect_earcrect earc rect) <= 8)%nat
        /\ forall p, In p (isect_earcrect earc rect)
             <-> exists side, In side (rectSides rect)
                              /\ In p (isect_earcline earc side))
  /\ (forall bezier : Bezier.t,
        (List.length (isect_bezierrect bezier rect) <= 8)%nat
        /\ forall p, In p (isect_bezierrect bezier rect)
             <-> exists side, In side (rectSides rect)
                              /\ In p (isect_bezierline bezier side)).
Proof.
  split; [intros line; apply (rect_solver_spec isect_lineline 1);
          apply isect_lineline_length|].
  split; [intros c; apply (rect_solver_spec isect_circleline 2);
          apply isect_circleline_length|].
  split; [intros a; apply (rect_solver_spec isect_carcline 2);
          apply isect_carcline_length|].
  split; [intros e; apply (rect_solver_spec isect_ellipseline 2);
          apply isect_ellipseline_length|].
  split; [intros a; apply (rect_solver_spec isect_earcline 2);
          apply isect_earcline_length|].
  intros b. apply (rect_solver_spec isect_bezierline 2).
  apply isect_bezierline_length.
Qed.

End FurtherSolvers.

(** ** More on the dispatch *)

Section FurtherDispatch.

Context {util : UtilOps} {coord : Coord2DOps} {math : MathOps}
        {hash : SpatialHashOps}.

Lemma registered_solvablePair (a b : Shape) :
  registered a b = solvablePair a b.
Proof. destruct a, b; vm_compute; reflexivity. Qed.

Lemma solvablePair_sym (a b : Shape) : solvablePair a b = solvablePair b a.
Proof. destruct a, b; reflexivity. Qed.

(** X14. [SnapPoints] has a solver for a pair of shapes exactly when one of
    them is a line, or exactly one of them is a rectangle, or both are
    circular arcs, whichever of the two is the query shape; any other pair
    (two circles, a circle and an arc, two ellipses, two rectangles, ...)
    never yields an intersection. *)
Theorem registered_pairs (a b : Shape) :
  registered a b = solvablePair a b
  /\ registered a b = registered b a
  /\ (solvablePair a b = false -> pairIntersections a b = []).
Proof.
  split; [apply registered_solvablePair|].
  split.
  - now rewrite !registered_solvablePair, solvablePair_sym.
  - intros Hno. apply dispatch_unregistered.
    now rewrite registered_solvablePair.
Qed.

(** X15. For two shapes of different classes it does not matter which one
    is the query shape and which one the candidate: [testIntersections]
    returns the same points and leaves the same manager. *)
Theorem testIntersections_swap (this : SnapPoints) (a b : Shape)
    (action : Z) :
  shapeName a <> shapeName b ->
  option_map (fun r => (fst r, snd (snd r)))
    (testIntersections this a [Some b] action)
  = option_map (fun r => (fst r, snd (snd r)))
      (testIntersections this b [Some a] action).
Proof.
  intros Hne. rewrite !testIntersections_spec. simpl.
  now rewrite (pairIntersections_swap a b Hne).
Qed.

End FurtherDispatch.

(** ** The snap points of a tool *)

Section ToolProperties.

Context {util : UtilOps} {coord : Coord2DOps} {math : MathOps}
        {hash : SpatialHashOps}.

(** X16. [clearSnapPoints] empties the auxiliary snap points and removes
    them from the index in one batch; it does not call the index at all
    when there are none, so a second call right after the first changes
    nothing, whatever the spatial hash does with an empty batch.  The
    pending-deletion list and the radius scale are never touched. *)
Theorem clearSnapPoints_twice (this : Tool) :
  auxiliarySnapPoints (clearSnapPoints this) = []
  /\ clearSnapPoints (clearSnapPoints this) = clearSnapPoints this
  /\ (auxiliarySnapPoints this = [] ->
      snapPoints (clearSnapPoints this) = snapPoints this)
  /\ (auxiliarySnapPoints this <> [] ->
      points (snapPoints (clearSnapPoints this))
      = SH_remove (points (snapPoints this)) (auxiliarySnapPoints this))
  /\ deletedPoints (snapPoints (clearSnapPoints this))
     = deletedPoints (snapPoints this)
  /\ snapRadiusScale (snapPoints (clearSnapPoints this))
     = snapRadiusScale (snapPoints this).
Proof.
  unfold clearSnapPoints.
  destruct this as [manager aux]. simpl.
  split; [reflexivity|]. split; [reflexivity|].
  destruct aux as [|p aux]; simpl.
  - repeat split; congruence.
  - repeat split; congruence.
Qed.



End ToolProperties.

(** ** Scenarios of the further properties, evaluated on [SpecModel] *)

Module FurtherScenarios.

Import SpecModel Inputs.

#[local] Existing Instances math util coord hash.



(** The query for (1,1) that excludes (5,5), against (0,0) and (5,5) in one
    bucket. *)
Lemma getNearestNeighbor_from_index_witness :
  getNearestNeighbor 2 (twoPointManager 16) (mkCoord2D 1 1)
    (Some (mkCoord2D 5 5))
  = Some (mkCoord2D 0 0)
  /\ In (mkCoord2D 0 0)
       (SH_search (points (twoPointManager 16)) (mkCoord2D 1 1)
          (2 / snapRadiusScale (twoPointManager 16)))
  /\ excluded (Some (mkCoord2D 5 5)) (mkCoord2D 0 0) = false.
Proof.
  split; [vm_compute; reflexivity|].
  apply (@getNearestNeighbor_from_index coord hash 2 (twoPointManager 16)
           (mkCoord2D 1 1) (Some (mkCoord2D 5 5)) (mkCoord2D 0 0)).
  vm_compute; reflexivity.
Defined.

(** The query for (1,1) against an index that holds (0,0) twice. *)
Lemma getNearestNeighbor_first_wins_witness :
  getNearestNeighbor 2 duplicateManager (mkCoord2D 1 1) None
  = Some (mkCoord2D 0 0)
  /\ exists before after : list Coord2D,
       filter (fun nc => negb (excluded None nc))
         (SH_search (points duplicateManager) (mkCoord2D 1 1)
            (2 / snapRadiusScale duplicateManager))
       = before ++ mkCoord2D 0 0 :: after
       /\ (forall c' : Coord2D,
             In c' before
             -> (distanceTo (mkCoord2D 1 1) c'
                 <=? distanceTo (mkCoord2D 1 1) (mkCoord2D 0 0)) = false)
       /\ (forall c' : Coord2D,
             In c' after
             -> (distanceTo (mkCoord2D 1 1) c'
                 <? distanceTo (mkCoord2D 1 1) (mkCoord2D 0 0)) = false).
Proof.
  split; [vm_compute; reflexivity|].
  apply (@getNearestNeighbor_first_wins coord hash 2 duplicateManager
           (mkCoord2D 1 1) None (mkCoord2D 0 0)).
  vm_compute; reflexivity.
Defined.

(** A circle and a line that crosses it, in both orders. *)
Lemma testIntersections_swap_witness :
  shapeName (ShapeCircle (Circle.mk (mkCoord2D 0 0) 5))
  <> shapeName (ShapeLine diagonal)
  /\ option_map (fun r => (fst r, snd (snd r)))
       (testIntersections emptyManager
          (ShapeCircle (Circle.mk (mkCoord2D 0 0) 5))
          [Some (ShapeLine diagonal)] insertFlag)
     = option_map (fun r => (fst r, snd (snd r)))
         (testIntersections emptyManager (ShapeLine diagonal)
            [Some (ShapeCircle (Circle.mk (mkCoord2D 0 0) 5))] insertFlag).
Proof.
  split; [discriminate|].
  apply (@testIntersections_swap util coord math hash emptyManager
           (ShapeCircle (Circle.mk (mkCoord2D 0 0) 5)) (ShapeLine diagonal)
           insertFlag).
  discriminate.
Defined.

End FurtherScenarios.
